(** * Snippet runner (PVHewson/snips): a shallow embedding and its properties

    The development follows the sources

    - [src/exension/background.js]  (fetch layer, stored credential,
      manifest and file loaders, execution in the page's MAIN world),
    - [src/exension/popup.js]       (the selection state, the risk gate of
      [runSelected], the search box, [esc]),
    - [src/snippets/contact.clear.critical.insights/run.js]
      (the bulk-update snippet: reading the identifiers, [buildTargets],
      [chunk], [updateMultipleChunk]; and the DevTools runner: [fetchText],
      [runSnippet]).

    JavaScript values are an inductive type, exceptions are an explicit
    result type, and the host facilities the code calls ([fetch],
    [confirm], [prompt], [JSON.parse], [localeCompare],
    [chrome.scripting.executeScript], the evaluation of snippet text, the
    CRM endpoint) are parameters of the functions that use them. *)

From Stdlib Require Import ZArith List String Ascii Lia Sorted Permutation DecimalString.
From Stdlib Require OrderedTypeEx.
From stdpp Require Import base list strings gmap.
From Equations Require Import Equations.
Import ListNotations.

Set Warnings "-register-all".

Open Scope string_scope.
Open Scope list_scope.
Open Scope Z_scope.

(* ===================================================================== *)
(** * Part I: the embedding *)
(* ===================================================================== *)

(** ** Characters and strings

    A string is a sequence of code units below 256, that is, of characters
    of Unicode's first two blocks (Basic Latin and Latin-1 Supplement), a
    character being its code; this covers the URLs, the risk levels, the
    base64 text and the messages the code builds.  Text that may hold any
    Unicode character (file contents, response bodies and the messages that
    quote them) is a list of code points, see [text]. *)

Definition nl : string := String (ascii_of_nat 10) EmptyString.
Definition dquote : string := String (ascii_of_nat 34) EmptyString.

Definition string_of_Z (n : Z) : string := NilZero.string_of_int (Z.to_int n).

(** The letters A to Z. *)
Definition is_upper (c : ascii) : bool :=
  let n := nat_of_ascii c in (Nat.leb 65 n && Nat.leb n 90).

(** The upper-case letters below U+0100: A to Z, and U+00C0 to U+00DE
    without the multiplication sign U+00D7.  The lower-case form of each is
    32 further on. *)
Definition has_lower (c : ascii) : bool :=
  let n := nat_of_ascii c in
  (Nat.leb 65 n && Nat.leb n 90) ||
  (Nat.leb 192 n && Nat.leb n 222 && negb (Nat.eqb n 215)).

Definition lower_char (c : ascii) : ascii :=
  if has_lower c then ascii_of_nat (nat_of_ascii c + 32)%nat else c.

(** [String.prototype.toLowerCase]. *)
Fixpoint toLowerCase (s : string) : string :=
  match s with
  | EmptyString => EmptyString
  | String c rest => String (lower_char c) (toLowerCase rest)
  end.

(** [s.startsWith(p)]. *)
Definition startsWith (s p : string) : bool := String.prefix p s.

(** [s.slice(n)] for [0 <= n]. *)
Definition slice_from (n : nat) (s : string) : string :=
  String.substring n (String.length s - n)%nat s.

(** [s.replace(/^\/+/, "")]: drop the leading slashes. *)
Fixpoint strip_leading_slashes (s : string) : string :=
  match s with
  | String "/"%char rest => strip_leading_slashes rest
  | _ => s
  end.

(** [s.replace(/\n/g, "")]: drop every line feed. *)
Fixpoint remove_newlines (s : string) : string :=
  match s with
  | EmptyString => EmptyString
  | String c rest =>
      if Ascii.eqb c (ascii_of_nat 10) then remove_newlines rest
      else String c (remove_newlines rest)
  end.

(** The white space and line terminators of ECMAScript below U+0100: tab,
    line feed, vertical tab, form feed, carriage return, space and the
    no-break space U+00A0. *)
Definition is_space (c : ascii) : bool :=
  let n := nat_of_ascii c in
  (Nat.leb 9 n && Nat.leb n 13) || Nat.eqb n 32 || Nat.eqb n 160.

Fixpoint trim_start (s : string) : string :=
  match s with
  | String c rest => if is_space c then trim_start rest else s
  | EmptyString => EmptyString
  end.

Fixpoint trim_end (s : string) : string :=
  match s with
  | EmptyString => EmptyString
  | String c rest =>
      match trim_end rest with
      | EmptyString => if is_space c then EmptyString else String c EmptyString
      | r => String c r
      end
  end.

(** [s.trim()]. *)
Definition trim (s : string) : string := trim_end (trim_start s).

Definition nonempty (s : string) : bool :=
  match s with EmptyString => false | _ => true end.

(** ** Numbers as strings

    [Number::toString] on integers.  A JavaScript number is a double: an
    integer stands for the double nearest to it, which below 2^53 is the
    integer itself.  Below 10^21 all the digits are printed; from there on
    the number is printed with an exponent, its digits the fewest that
    still denote it; what rounds to 2^1024 or more is infinite. *)

(** The double nearest to a positive integer: 53 significant bits, rounded
    to nearest, ties to even. *)
Definition nearest_double (m : Z) : Z :=
  let e := Z.log2 m - 52 in
  if e <=? 0 then m
  else
    let q := m / 2 ^ e in
    let r := m mod 2 ^ e in
    let half := 2 ^ (e - 1) in
    let up := if r <? half then false else if half <? r then true else Z.odd q in
    (if up then q + 1 else q) * 2 ^ e.

Definition num_digits (m : Z) : Z := Z.of_nat (String.length (string_of_Z m)).

(** The decimal of [k] significant digits that denotes [x], if there is
    one: the multiple of the [k]-th power of ten below the leading digit that
    is nearest to [x], when it rounds to [x]. *)
Definition decimal_of (x k : Z) : option Z :=
  let p := 10 ^ (num_digits x - k) in
  let lo := (x / p) * p in
  let hi := lo + p in
  let lo_ok := nearest_double lo =? x in
  let hi_ok := nearest_double hi =? x in
  if lo_ok && hi_ok then
    Some (if x - lo <? hi - x then lo
          else if hi - x <? x - lo then hi
          else if Z.even (x / p) then lo else hi)
  else if lo_ok then Some lo
  else if hi_ok then Some hi
  else None.

Fixpoint shortest_from (x k : Z) (more : nat) : Z :=
  match more with
  | O => x
  | S more' =>
      match decimal_of x k with
      | Some c => c
      | None => shortest_from x (k + 1) more'
      end
  end.

(** The shortest decimal that denotes [x]; 17 digits always suffice. *)
Definition shortest (x : Z) : Z := shortest_from x 1 17.

Fixpoint drop_zeros (rev_digits : list ascii) : list ascii :=
  match rev_digits with
  | "0"%char :: rest => drop_zeros rest
  | _ => rev_digits
  end.

(** [d.ddde+n] *)
Definition exponent_form (c : Z) : string :=
  let ds := list_ascii_of_string (string_of_Z c) in
  let e := string_of_Z (Z.of_nat (List.length ds) - 1) in
  match rev (drop_zeros (rev ds)) with
  | [] => "0"
  | [d] => String d ("e+" +:+ e)
  | d :: more => String d ("." +:+ string_of_list_ascii more +:+ "e+" +:+ e)
  end.

Definition Number_toString (n : Z) : string :=
  let m := nearest_double (Z.abs n) in
  let digits :=
    if m <? 10 ^ 21 then string_of_Z m
    else if m <? 2 ^ 1024 then exponent_form (shortest m)
    else "Infinity" in
  if n <? 0 then "-" +:+ digits else digits.

(** ** Unicode text

    The contents of a fetched file: a sequence of Unicode scalar values.
    (A JavaScript string holds UTF-16 code units; a well-formed one is
    determined by its scalar values.) *)

Definition text : Type := list Z.

Definition scalar (c : Z) : Prop :=
  (0 <= c < 55296) \/ (57344 <= c < 1114112).

(** A string as text. *)
Definition lit (s : string) : text :=
  map (fun c => Z.of_nat (nat_of_ascii c)) (list_ascii_of_string s).

(** ** JavaScript values

    The values [JSON.parse] produces, and [undefined].  Numbers are the
    integer-valued ones; objects are plain data objects, their properties
    an association list in insertion order. *)

Inductive value : Type :=
| VUndefined
| VNull
| VBool (b : bool)
| VNum (n : Z)
| VStr (s : string)
| VArr (elems : list value)
| VObj (props : list (string * value)).

(** Exceptions: what a [throw] or a rejected promise carries. *)
Inductive error : Type :=
| Error (message : text)     (* [new Error(message)] thrown by the code *)
| TypeError                  (* raised by the engine: a property of null, a call of a non-function *)
| SyntaxError                (* raised by [JSON.parse] *)
| InvalidCharacterError      (* raised by [atob] *)
| NetworkError               (* [fetch] rejected *)
| ReadError.                 (* reading a response body rejected *)

Inductive result (A : Type) : Type :=
| Ok (a : A)
| Throw (e : error).
Arguments Ok {A} a.
Arguments Throw {A} e.

Definition bind {A B : Type} (r : result A) (k : A -> result B) : result B :=
  match r with
  | Ok a => k a
  | Throw e => Throw e
  end.

Notation "x <- r ;; k" := (bind r (fun x => k))
  (at level 100, r at next level, right associativity).

(** ToBoolean. *)
Definition truthy (v : value) : bool :=
  match v with
  | VUndefined | VNull => false
  | VBool b => b
  | VNum n => negb (Z.eqb n 0)
  | VStr s => nonempty s
  | VArr _ | VObj _ => true
  end.

Definition nullish (v : value) : bool :=
  match v with
  | VUndefined | VNull => true
  | _ => false
  end.

(** ToString, as [String(v)] and template literals apply it. *)
Fixpoint ToString (v : value) : string :=
  match v with
  | VUndefined => "undefined"
  | VNull => "null"
  | VBool true => "true"
  | VBool false => "false"
  | VNum n => Number_toString n
  | VStr s => s
  | VArr elems =>
      (fix join (l : list value) : string :=
         match l with
         | [] => ""
         | x :: rest =>
             let sx := if nullish x then "" else ToString x in
             match rest with
             | [] => sx
             | _ => sx +:+ "," +:+ join rest
             end
         end) elems
  | VObj _ => "[object Object]"
  end.

Fixpoint assoc (k : string) (props : list (string * value)) : value :=
  match props with
  | [] => VUndefined
  | (k', v) :: rest => if String.eqb k k' then v else assoc k rest
  end.

(** [v.k] for a data property [k]: a TypeError on [null] and [undefined],
    [undefined] on the other values that are not objects. *)
Definition get (v : value) (k : string) : result value :=
  match v with
  | VUndefined | VNull => Throw TypeError
  | VObj props => Ok (assoc k props)
  | _ => Ok VUndefined
  end.

(** [v?.k]. *)
Definition get_opt (v : value) (k : string) : value :=
  match v with
  | VObj props => assoc k props
  | _ => VUndefined
  end.

(** [a || b] and [a ?? b]. *)
Definition or_else (a b : value) : value := if truthy a then a else b.
Definition coalesce (a b : value) : value := if nullish a then b else a.

Definition byte (b : Z) : Prop := 0 <= b < 256.
Definition sextet (s : Z) : Prop := 0 <= s < 64.

(** ** UTF-8 *)

Module Utf8.

(** The UTF-8 encoding of a scalar value (RFC 3629); the masks and shifts
    are written as quotients and remainders by powers of two. *)
Definition encode_cp (c : Z) : list Z :=
  if c <? 128 then [c]
  else if c <? 2048 then [192 + c / 64; 128 + c mod 64]
  else if c <? 65536 then
    [224 + c / 4096; 128 + (c / 64) mod 64; 128 + c mod 64]
  else
    [240 + c / 262144; 128 + (c / 4096) mod 64;
     128 + (c / 64) mod 64; 128 + c mod 64].

Definition encode (t : text) : list Z := flat_map encode_cp t.

(** The state of the decoder of [TextDecoder("utf-8")] (WHATWG Encoding,
    "UTF-8 decoder"): the code point being assembled, the continuation
    bytes still needed, and the range allowed for the next byte. *)
Record state : Type := mkState {
  code_point : Z;
  bytes_needed : nat;
  lower : Z;
  upper : Z
}.

Definition init : state :=
  {| code_point := 0; bytes_needed := 0; lower := 128; upper := 191 |}.

Definition replacement : Z := 65533.

(** A byte read while no sequence is open: the code points emitted and
    the next state. *)
Definition lead (b : Z) : list Z * state :=
  if (0 <=? b) && (b <=? 127) then ([b], init)
  else if (194 <=? b) && (b <=? 223) then
    ([], {| code_point := b mod 32; bytes_needed := 1;
            lower := 128; upper := 191 |})
  else if (224 <=? b) && (b <=? 239) then
    ([], {| code_point := b mod 16; bytes_needed := 2;
            lower := if b =? 224 then 160 else 128;
            upper := if b =? 237 then 159 else 191 |})
  else if (240 <=? b) && (b <=? 244) then
    ([], {| code_point := b mod 8; bytes_needed := 3;
            lower := if b =? 240 then 144 else 128;
            upper := if b =? 244 then 143 else 191 |})
  else ([replacement], init).

(** One byte through the decoder.  A byte outside the allowed range ends
    the open sequence with U+FFFD and is then read again as a first byte. *)
Definition step (st : state) (b : Z) : list Z * state :=
  match bytes_needed st with
  | O => lead b
  | S n =>
      if (lower st <=? b) && (b <=? upper st) then
        let cp := code_point st * 64 + b mod 64 in
        match n with
        | O => ([cp], init)
        | S _ => ([], {| code_point := cp; bytes_needed := n;
                         lower := 128; upper := 191 |})
        end
      else
        let '(out, st') := lead b in (replacement :: out, st')
  end.

Fixpoint run (st : state) (bs : list Z) : list Z :=
  match bs with
  | [] => match bytes_needed st with O => [] | S _ => [replacement] end
  | b :: rest => let '(out, st') := step st b in out ++ run st' rest
  end.

(** [new TextDecoder("utf-8").decode(bytes)]: not fatal, and with
    [ignoreBOM] false, so that a leading U+FEFF is not part of the output. *)
Definition strip_bom (out : text) : text :=
  match out with
  | c :: rest => if c =? 65279 then rest else out
  | [] => []
  end.

Definition decode (bs : list Z) : text := strip_bom (run init bs).

End Utf8.

(** ** Base64 *)

Module Base64.

Definition alphabet : string :=
  "ABCDEFGHIJKLMNOPQRSTUVWXYZabcdefghijklmnopqrstuvwxyz0123456789+/".

Definition char_of_sextet (n : Z) : ascii :=
  match String.get (Z.to_nat n) alphabet with
  | Some c => c
  | None => "="%char
  end.

Definition sextet_of_char (c : ascii) : option Z :=
  let n := Z.of_nat (nat_of_ascii c) in
  if (65 <=? n) && (n <=? 90) then Some (n - 65)
  else if (97 <=? n) && (n <=? 122) then Some (n - 71)
  else if (48 <=? n) && (n <=? 57) then Some (n + 4)
  else if n =? 43 then Some 62
  else if n =? 47 then Some 63
  else None.

(** Three bytes are four sextets; a last group of two bytes is three
    sextets, of one byte two. *)
Fixpoint sextets_of_bytes (bs : list Z) : list Z :=
  match bs with
  | a :: b :: c :: rest =>
      a / 4 :: (a mod 4) * 16 + b / 16 :: (b mod 16) * 4 + c / 64 :: c mod 64
        :: sextets_of_bytes rest
  | [a; b] => [a / 4; (a mod 4) * 16 + b / 16; (b mod 16) * 4]
  | [a] => [a / 4; (a mod 4) * 16]
  | [] => []
  end.

Definition padding (bs : list Z) : list ascii :=
  match (length bs mod 3)%nat with
  | 1%nat => ["="%char; "="%char]
  | 2%nat => ["="%char]
  | _ => []
  end.

(** The base64 encoding of a byte sequence (RFC 4648, with padding). *)
Definition encode (bs : list Z) : string :=
  string_of_list_ascii (map char_of_sextet (sextets_of_bytes bs) ++ padding bs).

(** Four sextets are three bytes; a last group of three sextets is two
    bytes (its last two bits dropped), of two sextets one byte (its last
    four bits dropped). *)
Fixpoint bytes_of_sextets (ss : list Z) : list Z :=
  match ss with
  | s1 :: s2 :: s3 :: s4 :: rest =>
      s1 * 4 + s2 / 16 :: (s2 mod 16) * 16 + s3 / 4 :: (s3 mod 4) * 64 + s4
        :: bytes_of_sextets rest
  | [s1; s2; s3] => [s1 * 4 + s2 / 16; (s2 mod 16) * 16 + s3 / 4]
  | [s1; s2] => [s1 * 4 + s2 / 16]
  | _ => []
  end.

Definition is_ascii_whitespace (c : ascii) : bool :=
  let n := nat_of_ascii c in
  Nat.eqb n 9 || Nat.eqb n 10 || Nat.eqb n 12 || Nat.eqb n 13 || Nat.eqb n 32.

Definition is_pad (c : ascii) : bool := Ascii.eqb c "="%char.

(** Step 2 of the forgiving decode: when the length is a multiple of
    four, one or two [=] at the end are removed. *)
Definition strip_padding (cs : list ascii) : list ascii :=
  if Nat.eqb (length cs mod 4) 0 then
    match rev cs with
    | p1 :: p2 :: r =>
        if is_pad p1 then if is_pad p2 then rev r else rev (p2 :: r) else cs
    | _ => cs
    end
  else cs.

Fixpoint sextets_of_chars (cs : list ascii) : option (list Z) :=
  match cs with
  | [] => Some []
  | c :: rest =>
      match sextet_of_char c, sextets_of_chars rest with
      | Some s, Some ss => Some (s :: ss)
      | _, _ => None
      end
  end.

(** [atob(data)]: the forgiving base64 decode of the WHATWG Infra
    standard.  The result is the binary string, given by its character
    codes; malformed data is an exception. *)
Definition atob (data : string) : result (list Z) :=
  let cs := List.filter (fun c => negb (is_ascii_whitespace c))
                   (list_ascii_of_string data) in
  let cs := strip_padding cs in
  if Nat.eqb (length cs mod 4) 1 then Throw InvalidCharacterError
  else
    match sextets_of_chars cs with
    | Some ss => Ok (bytes_of_sextets ss)
    | None => Throw InvalidCharacterError
    end.

End Base64.

(** ** Configuration *)

Record Config : Type := mkConfig {
  owner : string;
  repo : string;
  ref : string;
  manifestPath : string;
  requireConfirmForRisky : bool;
  riskyLevels : gset string
}.

(** [DEFAULT_CONFIG] of [background.js]; [CONFIG] of [popup.js] and of the
    DevTools runner has the same safety fields. *)
Definition DEFAULT_CONFIG : Config :=
  {| owner := "PVHewson";
     repo := "snips";
     ref := "main";
     manifestPath := "snippets/manifest.json";
     requireConfirmForRisky := true;
     riskyLevels := {[ "medium"; "high" ]} |}.

Definition CONFIG : Config := DEFAULT_CONFIG.

(** ** The fetch layer ([background.js]) *)

Record request : Type := mkRequest {
  url : string;
  bearer : option string      (* the [Authorization: Bearer] header, if any *)
}.

Record response : Type := mkResponse {
  status : Z;
  body : result text;         (* [res.text()] *)
  json : result value         (* [res.json()] *)
}.

(** [res.ok]: the status is in the range 200-299. *)
Definition ok (res : response) : bool :=
  (200 <=? status res) && (status res <=? 299).

(** A computation together with the requests it issued, in order. *)
Definition traced (A : Type) : Type := (list request * result A)%type.

Definition hex_digit (n : nat) : ascii :=
  match String.get n "0123456789ABCDEF" with
  | Some c => c
  | None => "0"%char
  end.

Definition unreserved (c : ascii) : bool :=
  let n := nat_of_ascii c in
  (Nat.leb 65 n && Nat.leb n 90) || (Nat.leb 97 n && Nat.leb n 122) ||
  (Nat.leb 48 n && Nat.leb n 57) ||
  existsb (Ascii.eqb c) (list_ascii_of_string "-_.!~*'()").

(** One byte, percent-encoded. *)
Definition percent (n : nat) : string :=
  String "%"%char (String (hex_digit (n / 16)) (String (hex_digit (n mod 16)) "")).

(** [encodeURIComponent]: every character but the unreserved ones is
    replaced by the percent-encoded bytes of its UTF-8 form, two bytes for a
    character from U+0080 on. *)
Fixpoint encodeURIComponent (s : string) : string :=
  match s with
  | EmptyString => EmptyString
  | String c rest =>
      let n := nat_of_ascii c in
      if unreserved c then String c (encodeURIComponent rest)
      else if Nat.ltb n 128 then percent n +:+ encodeURIComponent rest
      else percent (192 + n / 64) +:+ percent (128 + n mod 64)
           +:+ encodeURIComponent rest
  end.

(** [rawUrl(config, path)]. *)
Definition rawUrl (cfg : Config) (path : value) : string :=
  let p := strip_leading_slashes (ToString path) in
  "https://raw.githubusercontent.com/" +:+ owner cfg +:+ "/" +:+ repo cfg +:+
  "/" +:+ ref cfg +:+ "/" +:+ p.

(** [getGithubHeaders(token)]: the bearer token, when there is one. *)
Definition getGithubHeaders (token : string) : option string :=
  if nonempty token then Some token else None.

(** [safeRead(res)]. *)
Definition safeRead (res : response) : text :=
  match body res with
  | Ok t => t
  | Throw _ => []
  end.

(** The tail of the two failure messages: the body, when there is one. *)
Definition details (b : text) : text :=
  match b with
  | [] => []
  | _ => lit "Details: " ++ b
  end.

Definition marker (cfg : Config) : string :=
  "https://raw.githubusercontent.com/" +:+ owner cfg +:+ "/" +:+ repo cfg +:+
  "/" +:+ ref cfg +:+ "/".

(** [rawUrlThatFailed.startsWith(marker) ? rawUrlThatFailed.slice(marker.length) : null] *)
Definition repo_path (cfg : Config) (rawUrlThatFailed : string) : option string :=
  if startsWith rawUrlThatFailed (marker cfg)
  then Some (slice_from (String.length (marker cfg)) rawUrlThatFailed)
  else None.

Definition apiUrl (cfg : Config) (path : string) : string :=
  "https://api.github.com/repos/" +:+ owner cfg +:+ "/" +:+ repo cfg +:+
  "/contents/" +:+ path +:+ "?ref=" +:+ encodeURIComponent (ref cfg).

Definition cannot_map : text :=
  lit "Could not map raw URL to repo path for API fallback.".

Definition api_failed (st : Z) (u : string) (b : text) : text :=
  lit ("GitHub API fetch failed (" +:+ Number_toString st +:+ ") for " +:+ u +:+ nl)
  ++ details b.

Definition fetch_failed (st : Z) (u : string) (b : text) : text :=
  lit ("Fetch failed (" +:+ Number_toString st +:+ ") for " +:+ u +:+ nl)
  ++ details b.

Definition non_file (path : string) : text :=
  lit ("GitHub API returned non-file content for " +:+ path).

(** [json.type !== "file"] *)
Definition is_file (v : value) : bool :=
  match v with
  | VStr s => String.eqb s "file"
  | _ => false
  end.

(** Lines 65-79 of [fetchViaGithubApi]: from the parsed response to the
    text.  [Uint8Array.from] and a decoder that is not fatal do not throw, so
    the [catch] of the source is never entered. *)
Definition decode_contents (path : string) (j : value) : result text :=
  if negb (truthy j) || negb (is_file (get_opt j "type")) ||
     negb (truthy (get_opt j "content"))
  then Throw (Error (non_file path))
  else
    let b64 := remove_newlines (ToString (get_opt j "content")) in
    txt <- Base64.atob b64 ;;
    let bytes := map (fun c => c mod 256) txt in
    Ok (Utf8.decode bytes).

Section FetchLayer.
(** The network: what [fetch] resolves or rejects with, per request. *)
Variable fetch : request -> result response.
(** [chrome.storage.local]: the stored credential, if one was saved. *)
Variable githubToken : option string.

(** [getToken()]: [(githubToken ?? "").trim()]. *)
Definition getToken : string :=
  trim (match githubToken with Some t => t | None => "" end).

Definition fetchViaGithubApi (cfg : Config) (rawUrlThatFailed token : string)
  : traced text :=
  match repo_path cfg rawUrlThatFailed with
  | Some (String _ _ as path) =>
      let req := {| url := apiUrl cfg path; bearer := getGithubHeaders token |} in
      ([req],
       res <- fetch req ;;
       if negb (ok res)
       then Throw (Error (api_failed (status res) (apiUrl cfg path) (safeRead res)))
       else j <- json res ;; decode_contents path j)
  | _ => ([], Throw (Error cannot_map))
  end.

Definition fetchTextWithFallback (cfg : Config) (u : string) : traced text :=
  let req := {| url := u; bearer := None |} in
  match fetch req with
  | Throw e => ([req], Throw e)
  | Ok res =>
      if ok res then ([req], body res)
      else
        let failed :=
          ([req], Throw (Error (fetch_failed (status res) u (safeRead res)))) in
        if existsb (Z.eqb (status res)) [401; 403; 404] then
          let token := getToken in
          if nonempty token then
            let '(reqs, r) := fetchViaGithubApi cfg u token in (req :: reqs, r)
          else failed
        else failed
  end.
End FetchLayer.

(** ** The manifest loader ([background.js], [LOAD_MANIFEST]) *)

Definition bad_manifest : text :=
  lit "manifest.json must contain { snippets: [...] }".

Section Sorting.
(** [String.prototype.localeCompare]: the collation of the host. *)
Variable localeCompare : string -> string -> Z.

(** The comparator [(a, b) => (a.name || "").localeCompare(b.name || "")]:
    a TypeError when an element is [null] or [undefined], and when the
    name of the first is a truthy value that is not a string; the argument
    is converted by ToString. *)
Definition compare_names (a b : value) : result Z :=
  na <- get a "name" ;;
  nb <- get b "name" ;;
  match or_else na (VStr "") with
  | VStr x => Ok (localeCompare x (ToString (or_else nb (VStr ""))))
  | _ => Throw TypeError
  end.

(** [Array.prototype.sort(comparator)] is stable (ECMAScript 2019), and
    for a comparator that is a total preorder on the elements every stable
    sort returns the same array; it is computed here by insertion.
    An exception of the comparator ends the sort.  (Which pairs an engine
    compares is its own choice, so on arrays with elements the comparator
    rejects an engine may differ from this model; arrays that [JSON.parse]
    builds hold no [undefined], which [sort] would move to the end.) *)
Fixpoint insert (x : value) (sorted : list value) : result (list value) :=
  match sorted with
  | [] => Ok [x]
  | y :: rest =>
      c <- compare_names x y ;;
      if c <=? 0 then Ok (x :: y :: rest)
      else (r <- insert x rest ;; Ok (y :: r))
  end.

Fixpoint sort (l : list value) : result (list value) :=
  match l with
  | [] => Ok []
  | x :: rest => s <- sort rest ;; insert x s
  end.
End Sorting.

(** The key a descriptor is sorted by: [name || ""], as a string. *)
Definition name_key (a : value) : string :=
  ToString (or_else (get_opt a "name") (VStr "")).

(** A descriptor: an object whose [name] is absent (or falsy), or a string. *)
Definition is_descriptor (a : value) : bool :=
  match a with
  | VObj props =>
      match or_else (assoc "name" props) (VStr "") with
      | VStr _ => true
      | _ => false
      end
  | _ => false
  end.

(** The order of the names under a collation, and the names it deems equal
    to a given one. *)
Definition name_le (cmp : string -> string -> Z) (a b : value) : Prop :=
  cmp (name_key a) (name_key b) <= 0.

Definition tied (cmp : string -> string -> Z) (k : string) (a : value) : bool :=
  (cmp k (name_key a) <=? 0) && (cmp (name_key a) k <=? 0).

Section ManifestLoader.
Variable fetch : request -> result response.
Variable githubToken : option string.
(** [JSON.parse]; [Throw SyntaxError] on text that is not JSON. *)
Variable JSON_parse : text -> result value.
Variable localeCompare : string -> string -> Z.

(** Lines 160-166: from the fetched text to the sorted snippets. *)
Definition parse_manifest (t : text) : result (list value) :=
  manifest <- JSON_parse t ;;
  if negb (truthy manifest) then Throw (Error bad_manifest)
  else
    match get_opt manifest "snippets" with
    | VArr elems => sort localeCompare elems
    | _ => Throw (Error bad_manifest)
    end.

(** The [LOAD_MANIFEST] branch of the message handler: the snippets and
    the manifest's URL; the handler's [catch] turns an exception into an
    [{ ok: false, error }] reply. *)
Definition loadManifest (cfg : Config) : traced (list value * string) :=
  let u := rawUrl cfg (VStr (manifestPath cfg)) in
  let '(reqs, r) := fetchTextWithFallback fetch githubToken cfg u in
  (reqs, t <- r ;; snippets <- parse_manifest t ;; Ok (snippets, u)).
End ManifestLoader.

(** ** The snippet file loader ([background.js], [LOAD_SNIPPET_FILES]) *)

Record snippet_files : Type := mkFiles {
  readme : text;
  code : text;
  entryPath : value;
  entryUrl : string;
  readmeUrl : string
}.

(** [Promise.all] of two promises: both values, or the exception of the one
    that rejects first; [second_first] says which does when both reject. *)
Definition Promise_all {A B : Type} (second_first : bool)
    (p : result A) (q : result B) : result (A * B) :=
  match p, q with
  | Ok a, Ok b => Ok (a, b)
  | Throw e, Ok _ => Throw e
  | Ok _, Throw e => Throw e
  | Throw e1, Throw e2 => Throw (if second_first then e2 else e1)
  end.

Definition readmePath_of (s : value) : value :=
  or_else (get_opt s "readmePath")
          (VStr ("snippets/" +:+ ToString (get_opt s "id") +:+ "/README.md")).

Definition entryPath_of (s : value) : value :=
  or_else (get_opt s "entryPath")
          (VStr ("snippets/" +:+ ToString (get_opt s "id") +:+ "/run.js")).

Section SnippetFileLoader.
Variable fetch : request -> result response.
Variable githubToken : option string.
(** The scheduling of the two fetches: whether the second rejects first. *)
Variable second_first : bool.

End SnippetFileLoader.

(** ** The risk gate ([popup.js], [runSelected]; DevTools runner, [runSnippet]) *)

(** [String(s.risk || "").toLowerCase()], for a descriptor [s] that is not
    [null] or [undefined]. *)
Definition risk_of (s : value) : string :=
  toLowerCase (ToString (or_else (get_opt s "risk") (VStr ""))).

(** The text of the confirmation dialog. *)
Definition confirm_text (s : value) : string :=
  "This snippet is marked risk: " +:+ risk_of s +:+ "." +:+ nl +:+ nl +:+
  "Name: " +:+ ToString (or_else (get_opt s "name") (get_opt s "id")) +:+ nl +:+
  "Version: " +:+ ToString (or_else (get_opt s "version") (VStr "?")) +:+ nl +:+ nl +:+
  "Proceed to run it on this page?".

(** How a click on Run ends, up to the point where the code is handed to the
    execution engine. *)
Inductive gate_outcome : Type :=
| NotReady                        (* nothing selected, or no code loaded *)
| Declined (prompt : string)      (* the dialog was shown and answered false *)
| Proceeds (prompt : option string) (src : text).
                                  (* the code is run; [prompt] is the dialog shown, if any *)

Definition proceeds (o : gate_outcome) : bool :=
  match o with
  | Proceeds _ _ => true
  | _ => false
  end.

Definition prompted (o : gate_outcome) : bool :=
  match o with
  | Declined _ | Proceeds (Some _) _ => true
  | _ => false
  end.

Section RiskGate.
(** [window.confirm]: the user's answer to a dialog text. *)
Variable confirm : string -> bool.
Variable cfg : Config.

(** Lines 282-291 of [popup.js], lines 665-674 of the DevTools runner. *)
Definition gate (s : value) (src : text) : gate_outcome :=
  let risk := risk_of s in
  if requireConfirmForRisky cfg && bool_decide (risk ∈ riskyLevels cfg) then
    let ok := confirm (confirm_text s) in
    if negb ok then Declined (confirm_text s)
    else Proceeds (Some (confirm_text s)) src
  else Proceeds None src.

(** [runSelected] of [popup.js]; [selected] and [selectedCode] are the
    popup's state, [null] until a snippet is selected and its files are
    loaded. *)
Definition runSelected (selected : value) (selectedCode : option text)
  : gate_outcome :=
  match selectedCode with
  | Some ((_ :: _) as src) =>
      if negb (truthy selected) then NotReady else gate selected src
  | _ => NotReady
  end.

End RiskGate.

(** ** The execution engine ([background.js], [runInMainWorld]) *)

(** A value as line 130 meets it: [undefined] or [null], or another value
    with its conversion by [String], which for an object can throw. *)
Inductive seen : Type :=
| Nullish
| Printed (s : result text).

(** What a snippet throws, by what the [catch] block observes of it: its
    properties [message] and [stack] as [?.] reads them - a getter can
    throw - and the conversion of the value itself by [String]. *)
Record thrown : Type := mkThrown {
  message_read : result seen;
  stack_read : result seen;
  converted : result text
}.

Definition seen_of (v : value) : seen :=
  if nullish v then Nullish else Printed (Ok (lit (ToString v))).

(** An [Error] instance with the given message and stack. *)
Definition ErrorObject (message stack : text) : thrown :=
  {| message_read := Ok (Printed (Ok message));
     stack_read := Ok (Printed (Ok stack));
     converted := Ok (match message with
                      | [] => lit "Error"
                      | _ => lit "Error: " ++ message
                      end) |}.

(** A primitive or a plain data object, thrown as it is. *)
Definition Thrown (v : value) : thrown :=
  {| message_read := Ok (seen_of (get_opt v "message"));
     stack_read := Ok (seen_of (get_opt v "stack"));
     converted := Ok (lit (ToString v)) |}.

(** An object with no conversion to a string, such as
    [Object.create(null)]. *)
Definition Unprintable : thrown :=
  {| message_read := Ok Nullish;
     stack_read := Ok Nullish;
     converted := Throw TypeError |}.

(** How the call of the evaluated function ends; [R] is the type of the
    values a snippet returns. *)
Inductive completion (R : Type) : Type :=
| Fulfils (out : R)          (* the promise is fulfilled *)
| Rejects (e : thrown)       (* [eval] or the body throws, or the promise is rejected *)
| NeverSettles.              (* the promise stays pending *)
Arguments Fulfils {R} out.
Arguments Rejects {R} e.
Arguments NeverSettles {R}.

(** The record the injected function returns. *)
Inductive ExecutionResult (R : Type) : Type :=
| Success (out : R)                            (* [{ ok: true, out }] *)
| Failure (message : text) (stack : option text).
                                               (* [{ ok: false, error, stack }] *)
Arguments Success {R} out.
Arguments Failure {R} message stack.

(** One element of the array [chrome.scripting.executeScript] resolves
    with: the [result] of a frame, [None] when it is [undefined]. *)
Record InjectionResult (R : Type) : Type := mkInjection {
  injection_result : option (ExecutionResult R)
}.
Arguments mkInjection {R} injection_result.
Arguments injection_result {R} i.

(** [String(e?.message ?? e)] *)
Definition message_of (e : thrown) : result text :=
  m <- message_read e ;;
  match m with
  | Nullish => converted e
  | Printed s => s
  end.

(** [String(e?.stack ?? "")] *)
Definition stack_of (e : thrown) : result text :=
  st <- stack_read e ;;
  match st with
  | Nullish => Ok []
  | Printed s => s
  end.

(** The text handed to [eval]. *)
Definition wrapped (src : text) : text :=
  lit ("(async (ctx, Xrm) => {" +:+ nl +:+ dquote +:+ "use strict" +:+ dquote +:+ ";" +:+ nl)
  ++ src ++ lit (nl +:+ "})").

Definition no_Xrm : text :=
  lit "Xrm not found on this page (are you on a D365/Model-driven app tab?).".

Section ExecutionEngine.
(** The page API handle, and the values snippets return. *)
Variables X R : Type.
(** [window.Xrm] of the tab's page, if it has one. *)
Variable window_Xrm : option X.
(** The JavaScript engine of the page: the function text evaluated in the
    global scope and called with the context - whose [Xrm] field is the
    first argument here - and the handle, then awaited. *)
Variable eval_call : text -> X -> X -> completion R.
(** [chrome.scripting.executeScript] with one target tab, called with the
    tab, the function to inject and its argument: [None] when its promise
    never settles, an exception when it is rejected, else the array it
    resolves with. *)
Variable executeScript :
  Z -> (text -> option (result (ExecutionResult R))) -> text ->
  option (result (list (InjectionResult R))).

(** The function [runInMainWorld] injects into the page, lines 107-132:
    [None] when its promise never settles, an exception when its [catch]
    block throws. *)
Definition injected (src : text) : option (result (ExecutionResult R)) :=
  match window_Xrm with
  | None => Some (Ok (Failure no_Xrm None))
  | Some xrm =>
      match eval_call (wrapped src) xrm xrm with
      | Fulfils out => Some (Ok (Success out))
      | Rejects e =>
          Some (message <- message_of e ;;
                stack <- stack_of e ;;
                Ok (Failure message (Some stack)))
      | NeverSettles => None
      end
  end.

(** [runInMainWorld(tabId, userCode)]: the argument passed is
    [String(userCode ?? "")], for a [userCode] that is a string or absent;
    the pattern [[{ result }]] takes the [result] of the first element of
    the array, a TypeError when there is none. *)
Definition runInMainWorld (tabId : Z) (userCode : option text)
  : option (result (option (ExecutionResult R))) :=
  match executeScript tabId injected
          (match userCode with Some src => src | None => [] end) with
  | None => None
  | Some (Throw e) => Some (Throw e)
  | Some (Ok []) => Some (Throw TypeError)
  | Some (Ok (first :: _)) => Some (Ok (injection_result first))
  end.
End ExecutionEngine.
Arguments injected {X R} window_Xrm eval_call src.
Arguments runInMainWorld {X R} window_Xrm eval_call executeScript tabId userCode.

(** The record as it arrives in the extension: the value a snippet returns
    is copied across, the texts of a failure are unchanged. *)
Definition copied {R : Type} (copy : R -> R) (r : ExecutionResult R)
  : ExecutionResult R :=
  match r with
  | Success out => Success (copy out)
  | Failure message stack => Failure message stack
  end.

(** Chrome can inject into the tab: the promise the injected function
    returns is awaited, and its value, copied across, is the [result] of
    the one frame. *)
Definition injects {R : Type}
    (executeScript : Z -> (text -> option (result (ExecutionResult R))) -> text ->
                     option (result (list (InjectionResult R))))
    (tabId : Z) (copy : R -> R) : Prop :=
  forall func arg r, func arg = Some (Ok r) ->
    executeScript tabId func arg = Some (Ok [mkInjection (Some (copied copy r))]).

(** ** The bulk-update snippet ([contact.clear.critical.insights/run.js]) *)

(** [arr.slice(i, i + size)] *)
Definition slice {A : Type} (arr : list A) (i j : nat) : list A :=
  firstn (j - i) (skipn i arr).

(** The loop of [chunk(arr, size)]:
    [for (i; i < arr.length; i += size) out.push(arr.slice(i, i + size))].
    The size is positive, as at the snippet's one call. *)
Equations? chunk_from {A : Type} (arr : list A) (size : positive) (i : nat)
  : list (list A) by wf (length arr - i)%nat lt :=
chunk_from arr size i with decide (i < length arr)%nat := {
  | left _ => slice arr i (i + Pos.to_nat size)
                :: chunk_from arr size (i + Pos.to_nat size)%nat
  | right _ => [] }.
Proof. lia. Qed.

Definition chunk {A : Type} (arr : list A) (size : positive) : list (list A) :=
  chunk_from arr size 0.

(** One element of the [Targets] payload. *)
Record target : Type := mkTarget {
  field_name : string;
  field_value : bool;
  odata_type : string;
  contactid : string
}.

(** [buildTargets(ids, fieldName, value)] *)
Definition buildTargets (ids : list string) (fieldName : string) (v : bool)
  : list target :=
  map (fun id => {| field_name := fieldName; field_value := v;
                    odata_type := "Microsoft.Dynamics.CRM.contact";
                    contactid := id |}) ids.

Record post_response : Type := mkPost {
  post_ok : bool;
  post_status : Z;
  post_statusText : string;
  post_text : result text       (* [res.text()] *)
}.

(** The snippet's state: [processedCount], the texts appended to
    [displayArea.textContent], and the payloads sent so far. *)
Record progress : Type := mkProgress {
  processedCount : nat;
  displayed : list text;
  posted : list (list target)   (* the payloads sent, in order *)
}.

Definition update_failed_line (res : post_response) (responseText : text) : text :=
  lit (nl +:+ nl +:+ "UpdateMultiple failed: " +:+ Number_toString (post_status res) +:+
       ", " +:+ post_statusText res +:+ ", ") ++ responseText.

Definition update_failed (res : post_response) : text :=
  lit ("UpdateMultiple failed: " +:+ Number_toString (post_status res) +:+ " " +:+
       post_statusText res).

Definition updated_line (n : nat) : text :=
  lit (nl +:+ "   Updated " +:+ Number_toString (Z.of_nat n) +:+ " contact(s)").

Definition submitting_line (n m : nat) : text :=
  lit (nl +:+ "Submitting " +:+ Number_toString (Z.of_nat n) +:+ " updates in " +:+
       Number_toString (Z.of_nat m) +:+ " request(s)...").

Definition processed_line (n : nat) : text :=
  lit (nl +:+ nl +:+ Number_toString (Z.of_nat n) +:+ " records processed.").

Section BulkUpdate.
(** The CRM endpoint: the answer to a POST of a [Targets] payload, which may
    depend on the payloads it was sent before. *)
Variable post : list (list target) -> list target -> result post_response.

(** [updateMultipleChunk(targetsChunk)] *)
Definition updateMultipleChunk (st : progress) (targetsChunk : list target)
  : progress * result unit :=
  let sent := {| processedCount := processedCount st; displayed := displayed st;
                 posted := posted st ++ [targetsChunk] |} in
  match post (posted st) targetsChunk with
  | Throw e => (sent, Throw e)
  | Ok res =>
      match post_text res with
      | Throw e => (sent, Throw e)
      | Ok responseText =>
          if negb (post_ok res) then
            ({| processedCount := processedCount sent;
                displayed := displayed sent ++ [update_failed_line res responseText];
                posted := posted sent |},
             Throw (Error (update_failed res)))
          else
            let n := (processedCount sent + length targetsChunk)%nat in
            ({| processedCount := n;
                displayed := displayed sent ++ [updated_line n];
                posted := posted sent |}, Ok tt)
      end
  end.

(** [for (let i = 0; i < chunks.length; i++) await updateMultipleChunk(chunks[i])] *)
Fixpoint submit (st : progress) (chunks : list (list target))
  : progress * result unit :=
  match chunks with
  | [] => (st, Ok tt)
  | c :: rest =>
      match updateMultipleChunk st c with
      | (st', Ok _) => submit st' rest
      | (st', Throw e) => (st', Throw e)
      end
  end.

(** Step 6 of the click handler: build, chunk and send. *)
Definition process (contactIds : list string) : progress * result unit :=
  let targets := buildTargets contactIds "mag_hascriticalinsights" false in
  let chunks := chunk targets 200 in
  let st := {| processedCount := 0;
               displayed := [submitting_line (length targets) (length chunks)];
               posted := [] |} in
  match submit st chunks with
  | (st', Ok _) =>
      ({| processedCount := processedCount st';
          displayed := displayed st' ++ [processed_line (length targets)];
          posted := posted st' |}, Ok tt)
  | (st', Throw e) => (st', Throw e)
  end.
End BulkUpdate.

(** A chunk the endpoint accepts after the payloads [before]: the POST is
    answered, the body is read, and the response is successful. *)
Definition accepted (post : list (list target) -> list target -> result post_response)
    (before : list (list target)) (c : list target) : Prop :=
  exists res t, post before c = Ok res /\ post_text res = Ok t /\ post_ok res = true.

(** A run of chunks each accepted in its turn. *)
Fixpoint accepted_all (post : list (list target) -> list target -> result post_response)
    (before chunks : list (list target)) : Prop :=
  match chunks with
  | [] => True
  | c :: rest => accepted post before c /\ accepted_all post (before ++ [c]) rest
  end.

(** The counts reported after each of a run of accepted chunks. *)
Fixpoint running_totals (n : nat) (chunks : list (list target)) : list nat :=
  match chunks with
  | [] => []
  | c :: rest => (n + length c)%nat :: running_totals (n + length c) rest
  end.

(** ** The decoder's pending sequences *)

(** An interval of code points that holds scalar values only. *)
Definition scalar_interval (lo hi : Z) : Prop :=
  (0 <= lo /\ hi < 55296) \/ (57344 <= lo /\ hi < 1114112).

(** The number of code points that share their leading bits when [k] more
    continuation bytes follow. *)
Definition span (k : nat) : Z :=
  match k with
  | O => 1
  | S O => 64
  | _ => 4096
  end.

(** The invariant of the decoder's state: whatever bytes complete the open
    sequence, the code point assembled is a scalar value. *)
Definition pending_scalar (st : Utf8.state) : Prop :=
  match Utf8.bytes_needed st with
  | O => True
  | S k =>
      (k <= 2)%nat /\ 128 <= Utf8.lower st /\ Utf8.upper st <= 191 /\
      scalar_interval
        ((Utf8.code_point st * 64 + (Utf8.lower st - 128)) * span k)
        ((Utf8.code_point st * 64 + (Utf8.upper st - 128)) * span k + span k - 1)
  end.

(** ** HTML escaping ([popup.js] and the DevTools runner, [esc]) *)

(** [s.replaceAll(c, r)] for a pattern of one character. *)
Fixpoint replaceAll (c : ascii) (r : string) (s : string) : string :=
  match s with
  | EmptyString => EmptyString
  | String x rest =>
      if Ascii.eqb x c then r +:+ replaceAll c r rest
      else String x (replaceAll c r rest)
  end.

Definition amp : ascii := "&"%char.
Definition lt_sign : ascii := "<"%char.
Definition gt_sign : ascii := ">"%char.
Definition quot : ascii := ascii_of_nat 34.
Definition apos : ascii := "'"%char.

(** The five replacements of [esc], in the order of the source. *)
Definition esc_string (s : string) : string :=
  replaceAll apos "&#039;"
    (replaceAll quot "&quot;"
       (replaceAll gt_sign "&gt;"
          (replaceAll lt_sign "&lt;"
             (replaceAll amp "&amp;" s)))).

(** [esc(s)]: [String(s ?? "")], escaped. *)
Definition esc (v : value) : string :=
  esc_string (ToString (coalesce v (VStr ""))).

(** The entity that stands for one character, and a text escaped character
    by character. *)
Definition entity (c : ascii) : string :=
  if Ascii.eqb c amp then "&amp;"
  else if Ascii.eqb c lt_sign then "&lt;"
  else if Ascii.eqb c gt_sign then "&gt;"
  else if Ascii.eqb c quot then "&quot;"
  else if Ascii.eqb c apos then "&#039;"
  else String c EmptyString.

Fixpoint entities (s : string) : string :=
  match s with
  | EmptyString => EmptyString
  | String c rest => entity c +:+ entities rest
  end.

(** A string with each character replaced by a string. *)
Fixpoint expand (f : ascii -> string) (s : string) : string :=
  match s with
  | EmptyString => EmptyString
  | String c rest => f c +:+ expand f rest
  end.

(** Whether a character occurs in a string. *)
Fixpoint occurs (c : ascii) (s : string) : bool :=
  match s with
  | EmptyString => false
  | String x rest => Ascii.eqb x c || occurs c rest
  end.

(** ** The search box ([popup.js] and the DevTools runner) *)


(** [arr.join(sep)]: [null] and [undefined] elements are empty. *)
Fixpoint join (sep : string) (l : list value) : string :=
  match l with
  | [] => ""
  | x :: rest =>
      let sx := if nullish x then "" else ToString x in
      match rest with
      | [] => sx
      | _ => sx +:+ sep +:+ join sep rest
      end
  end.






(** ** The stored credential ([background.js], [SET_TOKEN] and [GET_CONFIG]) *)



(** ** The DevTools runner's [fetchText] *)

Record fetched : Type := mkFetched {
  token_after : string;          (* [CONFIG.githubToken] when the call returns *)
  prompted_user : bool;          (* whether [prompt] was shown *)
  requests : list request;
  outcome : result text
}.

Section DevToolsFetch.
Variable fetch : request -> result response.
(** [window.prompt]: the text entered, [None] when the dialog is cancelled. *)
Variable prompt : option string.
Variable cfg : Config.

(** [fetchText(url, { allowRetryWithTokenPrompt })], with [githubToken] the
    value of [CONFIG.githubToken] when it is called ([ensureTokenIfNeeded]
    changes nothing when that is a string).  The fallback reads the token
    back from [CONFIG] and trims it again. *)
Definition fetchText (githubToken : string) (u : string)
    (allowRetryWithTokenPrompt : bool) : fetched :=
  let req := {| url := u; bearer := None |} in
  match fetch req with
  | Throw e => mkFetched githubToken false [req] (Throw e)
  | Ok res =>
      let finish (asked : bool) :=
        mkFetched githubToken asked [req]
          (if negb (ok res)
           then Throw (Error (fetch_failed (status res) u (safeRead res)))
           else body res) in
      if negb (ok res) && allowRetryWithTokenPrompt && String.eqb githubToken "prompt" then
        if existsb (Z.eqb (status res)) [401; 403; 404] then
          match prompt with
          | Some entered =>
              if nonempty entered && nonempty (trim entered) then
                let '(reqs, r) := fetchViaGithubApi fetch cfg u (trim (trim entered)) in
                mkFetched (trim entered) true (req :: reqs) r
              else finish true
          | None => finish true
          end
        else finish false
      else finish false
  end.
End DevToolsFetch.

(** ** The popup's selection state ([popup.js])

    The variables of the popup and the [disabled] flags of its three
    buttons; the texts it shows (the status line, the README preview) are
    left out. *)

Record popup : Type := mkPopup {
  snippets : list value;
  selected : value;
  selectedCode : option text;
  selectedReadme : option text;
  selectedEntryPath : value;
  selectedEntryUrl : option string;
  selectedReadmeUrl : option string;
  manifestUrl : option string;
  runDisabled : bool;
  copyDisabled : bool;
  openDisabled : bool
}.

(** [selectSnippet(s, itemEl)] up to its [await]. *)
Definition selectSnippet_begin (s : value) (st : popup) : popup :=
  {| snippets := snippets st;
     selected := s;
     selectedCode := None;
     selectedReadme := None;
     selectedEntryPath := VNull;
     selectedEntryUrl := None;
     selectedReadmeUrl := None;
     manifestUrl := manifestUrl st;
     runDisabled := true;
     copyDisabled := true;
     openDisabled := false |}.

(** [selectSnippet] from the reply of [LOAD_SNIPPET_FILES] on: a failed
    load throws and leaves the state, a successful one stores the files and
    enables the buttons. *)
Definition selectSnippet_reply (resp : result snippet_files) (st : popup)
  : popup * result unit :=
  match resp with
  | Throw e => (st, Throw e)
  | Ok f =>
      ({| snippets := snippets st;
          selected := selected st;
          selectedCode := Some (code f);
          selectedReadme := Some (readme f);
          selectedEntryPath := entryPath f;
          selectedEntryUrl := Some (entryUrl f);
          selectedReadmeUrl := Some (readmeUrl f);
          manifestUrl := manifestUrl st;
          runDisabled := false;
          copyDisabled := false;
          openDisabled := false |}, Ok tt)
  end.

(** The popup's [loadManifest] up to its [await]: the selection is
    cleared. *)
Definition loadManifest_begin (st : popup) : popup :=
  {| snippets := snippets st;
     selected := VNull;
     selectedCode := None;
     selectedReadme := None;
     selectedEntryPath := VNull;
     selectedEntryUrl := None;
     selectedReadmeUrl := None;
     manifestUrl := manifestUrl st;
     runDisabled := true;
     copyDisabled := true;
     openDisabled := true |}.

(** A click on Run in a state of the popup. *)
Definition click_run (confirm : string -> bool) (cfg : Config) (st : popup)
  : gate_outcome :=
  runSelected confirm cfg (selected st) (selectedCode st).

(** ** The bulk-update snippet: reading the identifiers *)

Definition LF : ascii := ascii_of_nat 10.
Definition CR : ascii := ascii_of_nat 13.

Definition cons_head (c : ascii) (lines : list string) : list string :=
  match lines with
  | [] => [String c EmptyString]
  | l :: rest => String c l :: rest
  end.

(** [text.split(/\r?\n/)] *)
Fixpoint split_lines (s : string) : list string :=
  match s with
  | EmptyString => [EmptyString]
  | String c rest =>
      if Ascii.eqb c LF then EmptyString :: split_lines rest
      else
        match rest with
        | String c2 rest2 =>
            if Ascii.eqb c CR && Ascii.eqb c2 LF
            then EmptyString :: split_lines rest2
            else cons_head c (split_lines rest)
        | EmptyString => cons_head c (split_lines rest)
        end
  end.

(** [text.split(/\r?\n/).map(s => s.trim()).filter(Boolean)] *)
Definition contactIds_of (file_text : string) : list string :=
  List.filter nonempty (map trim (split_lines file_text)).

(** A file of identifiers, one per line, each followed by [eol]. *)
Fixpoint unlines (eol : string) (ids : list string) : string :=
  match ids with
  | [] => EmptyString
  | id :: rest => id +:+ eol +:+ unlines eol rest
  end.

(** The characters [trim] removes, by their codes. *)
Definition white_space (c : ascii) : Prop :=
  In (nat_of_ascii c) [9; 10; 11; 12; 13; 32; 160]%nat.

(** The first and the last character of a string that is not empty. *)
Definition first_char (s : string) (c : ascii) : Prop :=
  exists rest, s = String c rest.

Definition last_char (s : string) (c : ascii) : Prop :=
  exists front, s = front +:+ String c "".

(** An identifier as the snippet expects it: not empty, no white space
    around it, no line break in it. *)
Definition clean_id (id : string) : Prop :=
  id <> "" /\ (forall c, first_char id c \/ last_char id c -> ~ white_space c) /\
  occurs LF id = false /\ occurs CR id = false.

(** The click handler from the file's text on. *)
Definition process_file (post : list (list target) -> list target -> result post_response)
    (file_text : string) : progress * result unit :=
  process post (contactIds_of file_text).

(** ** Concrete hosts

    Instances of the host facilities, for the examples and the instances of
    the theorems below. *)

Definition Z_of_comparison (c : comparison) : Z :=
  match c with
  | Lt => -1
  | Eq => 0
  | Gt => 1
  end.

Fixpoint case_weights (s : string) : string :=
  match s with
  | EmptyString => EmptyString
  | String c rest =>
      String (if is_upper c then "2"%char else "1"%char) (case_weights rest)
  end.

(** The sort key of a name of ASCII letters, digits and spaces under the
    default collation ([localeCompare] with no options, CLDR root): the
    letters without their case first, then - after a separator below every
    character - the case of each, lower before upper. *)
Definition sort_key (s : string) : string :=
  toLowerCase s +:+ String (ascii_of_nat 0) (case_weights s).

(** [a.localeCompare(b)] on such names: the sort keys compared. *)
Definition root_compare (a b : string) : Z :=
  Z_of_comparison (OrderedTypeEx.String_as_OT.cmp (sort_key a) (sort_key b)).

Fixpoint text_eqb (a b : text) : bool :=
  match a, b with
  | [], [] => true
  | x :: a', y :: b' => (x =? y) && text_eqb a' b'
  | _, _ => false
  end.

(** A parser that knows one document. *)
Definition parse_one (doc : text) (v : value) : text -> result value :=
  fun t => if text_eqb t doc then Ok v else Throw SyntaxError.

Definition not_found : response :=
  {| status := 404; body := Ok (lit "404: Not Found"); json := Throw SyntaxError |}.

(** A network that serves the given URLs and answers 404 elsewhere. *)
Fixpoint serve (routes : list (string * response)) (req : request)
  : result response :=
  match routes with
  | [] => Ok not_found
  | (u, res) :: rest => if String.eqb (url req) u then Ok res else serve rest req
  end.

Definition plain (st : Z) (t : text) : response :=
  {| status := st; body := Ok t; json := Throw SyntaxError |}.

(** The answer of the contents API for a file with the given [content]. *)
Definition file_json (content : string) : response :=
  {| status := 200; body := Throw ReadError;
     json := Ok (VObj [("type", VStr "file"); ("encoding", VStr "base64");
                       ("content", VStr content)]) |}.

Definition desc_Beta : value := VObj [("id", VStr "a"); ("name", VStr "Beta")].
Definition desc_alpha : value := VObj [("id", VStr "b"); ("name", VStr "alpha")].
Definition desc_upper_A : value := VObj [("id", VStr "x"); ("name", VStr "A")].
Definition desc_lower_a : value := VObj [("id", VStr "y"); ("name", VStr "a")].

(** A network that serves one manifest text at the configured path. *)
Definition manifest_host (t : text) : request -> result response :=
  serve [(rawUrl DEFAULT_CONFIG (VStr (manifestPath DEFAULT_CONFIG)), plain 200 t)].

Definition accepted_response : post_response :=
  {| post_ok := true; post_status := 204; post_statusText := "No Content";
     post_text := Ok [] |}.

Definition refused_response : post_response :=
  {| post_ok := false; post_status := 500; post_statusText := "Server Error";
     post_text := Ok (lit "busy") |}.

(** A CRM endpoint that accepts two requests and refuses the third,
    whatever it holds. *)
Definition refuse_third (before : list (list target)) (c : list target)
  : result post_response :=
  Ok (if Nat.eqb (length before) 2 then refused_response else accepted_response).

(** A page with [Xrm] whose engine ends every call the same way. *)
Definition page (c : completion value) : text -> unit -> unit -> completion value :=
  fun _ _ _ => c.

(** A browser that injects into every tab and copies the values of
    [JSON.parse] as they are; a rejected promise of the injected function
    rejects the call. *)
Definition chrome_executeScript (tabId : Z)
    (func : text -> option (result (ExecutionResult value))) (arg : text)
  : option (result (list (InjectionResult value))) :=
  match func arg with
  | None => None
  | Some (Ok r) => Some (Ok [mkInjection (Some (copied (fun v => v) r))])
  | Some (Throw e) => Some (Throw e)
  end.

(** A tab the browser cannot inject into, such as one showing a page of
    the browser itself: the call is rejected. *)
Definition cannot_access : text := lit "Cannot access a chrome:// URL".

Definition refusing_executeScript (tabId : Z)
    (func : text -> option (result (ExecutionResult value))) (arg : text)
  : option (result (list (InjectionResult value))) :=
  Some (Throw (Error cannot_access)).




(** A multi-byte text, "H", e-acute, the euro sign and an emoji; and the
    base64 of its UTF-8 bytes, broken by a line feed. *)
Definition sample_text : text := [72; 233; 8364; 128512].
Definition sample_content : string := "SMOp4oKs" +:+ nl +:+ "8J+YgA==".

(** The contents API serving one file of the default repository. *)
Definition contents_host (path content : string) : request -> result response :=
  serve [(apiUrl DEFAULT_CONFIG path, file_json content)].

(** The manifest of the specification's example. *)
Definition example_manifest : value :=
  VObj [("snippets", VArr [desc_Beta; desc_alpha])].

(** ** Proof automation *)

(** Case analysis on the integer comparisons of the goal. *)
Ltac decide_bounds :=
  repeat match goal with
         | |- context [?a <=? ?b] => destruct (Z.leb_spec a b); try lia
         | |- context [?a <? ?b] => destruct (Z.ltb_spec a b); try lia
         | |- context [?a =? ?b] => destruct (Z.eqb_spec a b); try lia
         end.

(** Case analysis on a character. *)
Ltac each_char x :=
  destruct x as [[] [] [] [] [] [] [] []].

(* ===================================================================== *)
(** * Part II: properties *)
(* ===================================================================== *)

(** ** The risk gate *)

Lemma gate_decision (confirm : string -> bool) (cfg : Config) (s : value) (src : text) :
  prompted (gate confirm cfg s src)
  = requireConfirmForRisky cfg && bool_decide (risk_of s ∈ riskyLevels cfg).
Proof.
  unfold gate.
  destruct (requireConfirmForRisky cfg && bool_decide (risk_of s ∈ riskyLevels cfg));
    [destruct (confirm (confirm_text s))|]; reflexivity.
Qed.

Lemma gate_prompted (confirm : string -> bool) (cfg : Config) (s : value) (src : text) :
  requireConfirmForRisky cfg = true -> risk_of s ∈ riskyLevels cfg ->
  gate confirm cfg s src =
    if confirm (confirm_text s) then Proceeds (Some (confirm_text s)) src
    else Declined (confirm_text s).
Proof.
  intros Hreq Hin. unfold gate.
  rewrite Hreq, bool_decide_eq_true_2 by assumption. simpl.
  destruct (confirm (confirm_text s)); reflexivity.
Qed.

Lemma gate_silent (confirm : string -> bool) (cfg : Config) (s : value) (src : text) :
  requireConfirmForRisky cfg = false \/ risk_of s ∉ riskyLevels cfg ->
  gate confirm cfg s src = Proceeds None src.
Proof.
  intros [Hreq | Hnin]; unfold gate.
  - rewrite Hreq. reflexivity.
  - rewrite bool_decide_eq_false_2 by assumption.
    rewrite andb_false_r. reflexivity.
Qed.

Lemma runSelected_ready (confirm : string -> bool) (cfg : Config) (s : value) (src : text) :
  truthy s = true -> src <> [] ->
  runSelected confirm cfg s (Some src) = gate confirm cfg s src.
Proof.
  intros Hs Hsrc. unfold runSelected.
  destruct src as [|c src']; [congruence|]. rewrite Hs. reflexivity.
Qed.





(** C10. The gate lower-cases the risk before the membership test: whether
    the confirmation is shown depends on the risk only through its
    lower-case form; with the shipped configuration the risks "High", "HIGH"
    and "high" all require confirmation, and a descriptor with no risk
    field (or a falsy one) has the empty classification and proceeds without
    confirmation. *)
Theorem C10_risk_case_insensitive (confirm : string -> bool) (s : value) (src : text) :
  (forall cfg r, get_opt s "risk" = VStr r ->
     prompted (gate confirm cfg s src)
     = requireConfirmForRisky cfg && bool_decide (toLowerCase r ∈ riskyLevels cfg)) /\
  (forall r, get_opt s "risk" = VStr r -> r ∈ ["High"; "HIGH"; "high"] ->
     prompted (gate confirm CONFIG s src) = true /\
     (proceeds (gate confirm CONFIG s src) = true <-> confirm (confirm_text s) = true)) /\
  (truthy (get_opt s "risk") = false ->
     risk_of s = "" /\ forall cfg, "" ∉ riskyLevels cfg ->
     gate confirm cfg s src = Proceeds None src) /\
  (get_opt s "risk" = VUndefined -> gate confirm CONFIG s src = Proceeds None src).
Proof.
  assert (Hrisk : forall r, get_opt s "risk" = VStr r -> risk_of s = toLowerCase r).
  { intros r Hr. unfold risk_of, or_else. rewrite Hr. simpl.
    destruct r; reflexivity. }
  assert (Hnone : truthy (get_opt s "risk") = false -> risk_of s = "").
  { intros Hr. unfold risk_of, or_else. rewrite Hr. reflexivity. }
  split; [|split; [|split]].
  - intros cfg r Hr. rewrite gate_decision, (Hrisk r Hr). reflexivity.
  - intros r Hr Hin.
    assert (Hhigh : risk_of s = "high").
    { rewrite (Hrisk r Hr).
      repeat (apply elem_of_cons in Hin; destruct Hin as [-> | Hin]; [reflexivity|]).
      inversion Hin. }
    rewrite gate_prompted; [| reflexivity | rewrite Hhigh; set_solver].
    destruct (confirm (confirm_text s)); simpl; intuition congruence.
  - intros Hr. split; [exact (Hnone Hr)|].
    intros cfg Hcfg. apply gate_silent. right. rewrite (Hnone Hr). exact Hcfg.
  - intros Hr. apply gate_silent. right. rewrite Hnone by (rewrite Hr; reflexivity).
    vm_compute. intros H. discriminate H.
Qed.

(** ** The fetch layer *)

Lemma status_listed (st : Z) :
  existsb (Z.eqb st) [401; 403; 404] = true <-> st = 401 \/ st = 403 \/ st = 404.
Proof. simpl. lia. Qed.

Lemma nonempty_true (s : string) : nonempty s = true <-> s <> "".
Proof. destruct s; simpl; split; congruence. Qed.

Lemma fetchViaGithubApi_unmapped (fetch : request -> result response) (cfg : Config)
    (u token : string) :
  startsWith u (marker cfg) = false ->
  fetchViaGithubApi fetch cfg u token = ([], Throw (Error cannot_map)).
Proof.
  intros Hpre. unfold fetchViaGithubApi, repo_path. rewrite Hpre. reflexivity.
Qed.

Lemma fetchViaGithubApi_requests (fetch : request -> result response) (cfg : Config)
    (u token : string) :
  fst (fetchViaGithubApi fetch cfg u token) <> [] ->
  startsWith u (marker cfg) = true /\
  exists path, repo_path cfg u = Some path /\ path <> "" /\
    fst (fetchViaGithubApi fetch cfg u token)
    = [ {| url := apiUrl cfg path; bearer := getGithubHeaders token |} ].
Proof.
  unfold fetchViaGithubApi, repo_path.
  destruct (startsWith u (marker cfg)); simpl; [|congruence].
  destruct (slice_from _ u) as [|c p] eqn:Hp; simpl; [congruence|].
  intros _. split; [reflexivity|].
  exists (String c p). repeat split; congruence.
Qed.

Lemma append_assoc (a b c : string) : (a +:+ b) +:+ c = a +:+ (b +:+ c).
Proof.
  induction a as [|x a IH]; [reflexivity|].
  change (String x ((a +:+ b) +:+ c) = String x (a +:+ (b +:+ c))).
  f_equal. exact IH.
Qed.

Lemma prefix_append (p s : string) : String.prefix p (p +:+ s) = true.
Proof.
  induction p as [|c p IH]; [destruct s; reflexivity|].
  change (String.prefix (String c p) (String c (p +:+ s)) = true).
  cbn [String.prefix]. destruct (ascii_dec c c); [exact IH|congruence].
Qed.

Lemma substring_all (s : string) : String.substring 0 (String.length s) s = s.
Proof. induction s as [|c s IH]; [reflexivity|]. cbn. rewrite IH. reflexivity. Qed.

Lemma slice_from_append (m s : string) : slice_from (String.length m) (m +:+ s) = s.
Proof.
  unfold slice_from. induction m as [|c m IH].
  - change ("" +:+ s) with s. cbn [String.length].
    rewrite Nat.sub_0_r. apply substring_all.
  - change (String c m +:+ s) with (String c (m +:+ s)).
    cbn [String.length String.substring Nat.sub]. exact IH.
Qed.

(** The URLs the loaders build always map back to their repository path. *)
Lemma repo_path_rawUrl (cfg : Config) (path : value) :
  repo_path cfg (rawUrl cfg path) = Some (strip_leading_slashes (ToString path)).
Proof.
  assert (H : rawUrl cfg path = marker cfg +:+ strip_leading_slashes (ToString path)).
  { unfold rawUrl, marker. rewrite !append_assoc. reflexivity. }
  unfold repo_path, startsWith. rewrite H, prefix_append, slice_from_append.
  reflexivity.
Qed.

(** C6. A URL that does not begin with the raw-host prefix of the configured
    owner, repository and ref makes the fallback fail with the "Could not
    map raw URL to repo path" error and no request issued; the fallback
    issues a request only for a URL with that prefix, and then to the
    contents API.  Through [fetchTextWithFallback] the only request issued
    for such a URL is the first, unauthenticated one. *)
Theorem C6_unmapped_url_no_retry (fetch : request -> result response)
    (githubToken : option string) (cfg : Config) (u token : string) :
  (startsWith u (marker cfg) = false ->
     fetchViaGithubApi fetch cfg u token = ([], Throw (Error cannot_map)) /\
     fst (fetchTextWithFallback fetch githubToken cfg u)
     = [ {| url := u; bearer := None |} ]) /\
  (fst (fetchViaGithubApi fetch cfg u token) <> [] ->
     startsWith u (marker cfg) = true).
Proof.
  split.
  - intros Hpre. split; [apply fetchViaGithubApi_unmapped; exact Hpre|].
    unfold fetchTextWithFallback.
    destruct (fetch _) as [res|e]; [|reflexivity].
    destruct (ok res); [reflexivity|].
    destruct (existsb _ _); [|reflexivity].
    destruct (nonempty _); [|reflexivity].
    rewrite fetchViaGithubApi_unmapped by exact Hpre. reflexivity.
  - intros H. apply (fetchViaGithubApi_requests fetch cfg u token H).
Qed.

(** C4. On a 2xx response [fetchTextWithFallback] returns the body text and
    issues no request but the first; on another response the fallback runs
    exactly when the status is 401, 403 or 404 and a credential is stored,
    and otherwise the call fails, again with no other request, with the
    error whose message is "Fetch failed (<status>) for <url>", a line
    feed and, when the body can be read and is not empty, "Details: "
    followed by the body text. *)
Theorem C4_fetch_fallback_policy (fetch : request -> result response)
    (githubToken : option string) (cfg : Config) (u : string) (res : response) :
  fetch {| url := u; bearer := None |} = Ok res ->
  let first := {| url := u; bearer := None |} in
  let token := getToken githubToken in
  let listed := status res = 401 \/ status res = 403 \/ status res = 404 in
  (ok res = true ->
     fetchTextWithFallback fetch githubToken cfg u = ([first], body res)) /\
  (ok res = false -> listed -> token <> "" ->
     fetchTextWithFallback fetch githubToken cfg u
     = (first :: fst (fetchViaGithubApi fetch cfg u token),
        snd (fetchViaGithubApi fetch cfg u token))) /\
  (ok res = false -> ~ listed \/ token = "" ->
     fetchTextWithFallback fetch githubToken cfg u
     = ([first],
        Throw (Error
          (lit ("Fetch failed (" +:+ Number_toString (status res) +:+ ") for " +:+ u +:+ nl)
           ++ match body res with
              | Ok (c :: b) => lit "Details: " ++ c :: b
              | _ => []
              end)))).
Proof.
  intros Hfetch first token listed. subst first token listed.
  unfold fetchTextWithFallback. rewrite Hfetch.
  split; [|split].
  - intros ->. reflexivity.
  - intros -> Hst Htok.
    apply status_listed in Hst. rewrite Hst.
    apply nonempty_true in Htok. rewrite Htok.
    destruct (fetchViaGithubApi _ _ _ _). reflexivity.
  - intros -> Hnot.
    assert (Hmsg : fetch_failed (status res) u (safeRead res)
                   = lit ("Fetch failed (" +:+ Number_toString (status res) +:+ ") for "
                          +:+ u +:+ nl)
                     ++ match body res with
                        | Ok (c :: b) => lit "Details: " ++ c :: b
                        | _ => []
                        end).
    { unfold fetch_failed, details, safeRead.
      destruct (body res) as [[|c b]|e]; reflexivity. }
    rewrite <- Hmsg. destruct Hnot as [Hst | Htok].
    + destruct (existsb _ _) eqn:E; [|reflexivity].
      apply status_listed in E. contradiction.
    + rewrite Htok. unfold nonempty. destruct (existsb _ _); reflexivity.
Qed.

(** A public file answered with 200; a private one answered with 403 while
    no credential is stored; and a server error, with a credential
    stored. *)
Lemma C4_fetch_fallback_policy_witness :
  fetchTextWithFallback (serve [("https://h/x", plain 200 (lit "ok"))]) None
    DEFAULT_CONFIG "https://h/x"
  = ([ {| url := "https://h/x"; bearer := None |} ], Ok (lit "ok")) /\
  fetchTextWithFallback (serve [("https://h/x", plain 403 (lit "no"))]) None
    DEFAULT_CONFIG "https://h/x"
  = ([ {| url := "https://h/x"; bearer := None |} ],
     Throw (Error (lit ("Fetch failed (403) for https://h/x" +:+ nl +:+ "Details: no")))) /\
  fetchTextWithFallback (serve [("https://h/x", plain 500 [])]) (Some "tok")
    DEFAULT_CONFIG "https://h/x"
  = ([ {| url := "https://h/x"; bearer := None |} ],
     Throw (Error (lit ("Fetch failed (500) for https://h/x" +:+ nl)))).
Proof.
  split; [|split].
  - apply (C4_fetch_fallback_policy (serve [("https://h/x", plain 200 (lit "ok"))])
             None DEFAULT_CONFIG "https://h/x" (plain 200 (lit "ok")) eq_refl).
    reflexivity.
  - apply (C4_fetch_fallback_policy (serve [("https://h/x", plain 403 (lit "no"))])
             None DEFAULT_CONFIG "https://h/x" (plain 403 (lit "no")) eq_refl).
    + reflexivity.
    + right. reflexivity.
  - apply (C4_fetch_fallback_policy (serve [("https://h/x", plain 500 [])])
             (Some "tok") DEFAULT_CONFIG "https://h/x" (plain 500 []) eq_refl).
    + reflexivity.
    + left. cbn. lia.
Defined.

(** ** The manifest loader: malformed manifests *)

Lemma parse_manifest_invalid_json (JSON_parse : text -> result value)
    (localeCompare : string -> string -> Z) (t : text) (e : error) :
  JSON_parse t = Throw e -> parse_manifest JSON_parse localeCompare t = Throw e.
Proof. intros H. unfold parse_manifest. rewrite H. reflexivity. Qed.

Lemma parse_manifest_no_array (JSON_parse : text -> result value)
    (localeCompare : string -> string -> Z) (t : text) (m : value) :
  JSON_parse t = Ok m ->
  (forall elems, get_opt m "snippets" <> VArr elems) ->
  parse_manifest JSON_parse localeCompare t = Throw (Error bad_manifest).
Proof.
  intros H Hshape. unfold parse_manifest. rewrite H. simpl.
  destruct (truthy m); simpl; [|reflexivity].
  destruct (get_opt m "snippets") as [| | | | |elems|] eqn:E; try reflexivity.
  exfalso. apply (Hshape elems). reflexivity.
Qed.

(** C5. When the fetched manifest text is not valid JSON, [loadManifest]
    fails with the parser's exception; when the parsed value has no
    array-valued [snippets] field, it fails with the "manifest.json must
    contain { snippets: [...] }" error.  In both cases the result is an
    exception, never a list of snippets. *)
Theorem C5_malformed_manifest_fails (fetch : request -> result response)
    (githubToken : option string) (JSON_parse : text -> result value)
    (localeCompare : string -> string -> Z) (cfg : Config) (t : text) :
  snd (fetchTextWithFallback fetch githubToken cfg
         (rawUrl cfg (VStr (manifestPath cfg)))) = Ok t ->
  let loaded := snd (loadManifest fetch githubToken JSON_parse localeCompare cfg) in
  (forall e, JSON_parse t = Throw e -> loaded = Throw e) /\
  (forall m, JSON_parse t = Ok m ->
     (forall elems, get_opt m "snippets" <> VArr elems) ->
     loaded = Throw (Error bad_manifest)).
Proof.
  intros Hfetch loaded. subst loaded. unfold loadManifest.
  destruct (fetchTextWithFallback _ _ _ _) as [reqs r]. simpl in *. subst r. simpl.
  split.
  - intros e He. rewrite (parse_manifest_invalid_json _ _ _ _ He). reflexivity.
  - intros m Hm Hshape. rewrite (parse_manifest_no_array _ _ _ _ Hm Hshape). reflexivity.
Qed.

(** A manifest that is the JSON document [{}]: parsed, it has no [snippets]. *)
Lemma C5_malformed_manifest_fails_witness :
  snd (loadManifest
         (serve [(rawUrl DEFAULT_CONFIG (VStr "snippets/manifest.json"), plain 200 (lit "{}"))])
         None (parse_one (lit "{}") (VObj [])) root_compare DEFAULT_CONFIG)
  = Throw (Error bad_manifest).
Proof.
  refine (proj2 (C5_malformed_manifest_fails
                   (serve [(rawUrl DEFAULT_CONFIG (VStr "snippets/manifest.json"),
                            plain 200 (lit "{}"))])
                   None (parse_one (lit "{}") (VObj [])) root_compare DEFAULT_CONFIG
                   (lit "{}") eq_refl) (VObj []) eq_refl _).
  intros elems. simpl. discriminate.
Defined.

(** ** The snippet file loader *)

Lemma Promise_all_ok {A B : Type} (sf : bool) (p : result A) (q : result B) (a : A) (b : B) :
  Promise_all sf p q = Ok (a, b) <-> p = Ok a /\ q = Ok b.
Proof.
  destruct p, q; simpl; split; try intros [? ?]; try intros ?; try congruence.
  - inversion H; subst; split; reflexivity.
Qed.




(** An id that is a number is printed as JavaScript prints it, with an
    exponent from 10^21 on. *)
Lemma default_paths_of_numbers :
  entryPath_of (VObj [("id", VNum 7)]) = VStr "snippets/7/run.js" /\
  entryPath_of (VObj [("id", VNum (10 ^ 21))]) = VStr "snippets/1e+21/run.js" /\
  readmePath_of (VObj [("id", VNum (2 ^ 70))])
  = VStr "snippets/1.1805916207174113e+21/README.md".
Proof. repeat split; vm_compute; reflexivity. Qed.

(** ** The execution engine *)

(** C1, as stated, fails: a thrown error whose message is empty gives a
    failure record with the empty message; on a page without [Xrm] source
    text that returns 42 is not evaluated, the result being the failure
    record of the guard, which has no stack; the [catch] block itself
    throws, so that the injected function returns no record, when the
    thrown object has no conversion to a string, or when it has a message
    but its stack has none; and when the browser cannot inject into the tab
    the rejection of [executeScript] leaves [runInMainWorld], which has no
    handler for it. *)
Lemma C1_execute_counterexample :
  runInMainWorld (Some tt) (page (Rejects (ErrorObject [] (lit "Error"))))
                 chrome_executeScript 1 (Some (lit "throw new Error()"))
  = Some (Ok (Some (Failure [] (Some (lit "Error"))))) /\
  runInMainWorld None (page (Fulfils (VNum 42)))
                 chrome_executeScript 1 (Some (lit "return 42;"))
  = Some (Ok (Some (Failure no_Xrm None))) /\
  injected (Some tt) (page (Rejects Unprintable)) (lit "throw Object.create(null)")
  = Some (Throw TypeError) /\
  injected (Some tt)
    (page (Rejects {| message_read := Ok (Printed (Ok (lit "boom")));
                      stack_read := Ok (Printed (Throw TypeError));
                      converted := Ok (lit "[object Object]") |}))
    (lit "throw {message:'boom', stack:Object.create(null)}")
  = Some (Throw TypeError) /\
  runInMainWorld (Some tt) (page (Fulfils (VNum 42)))
                 refusing_executeScript 1 (Some (lit "return 42;"))
  = Some (Throw (Error cannot_access)).
Proof. repeat split. Qed.

(** C1, amended.  In a tab that Chrome can inject into: when the page has
    [Xrm] and the call of the evaluated source - the source wrapped in a
    strict async function of [ctx] and [Xrm] - is fulfilled,
    [runInMainWorld] returns the success record with the returned value as
    it is copied across; when the source throws or its promise is rejected
    with a value [e] whose [message] and [stack] can be read and converted
    to strings, it returns the failure record whose message is
    [String(e?.message ?? e)] and whose stack is [String(e?.stack ?? "")]
    - for a thrown [Error] its message, empty when that is, and its stack;
    for a thrown string the string and the empty stack - and no exception
    leaves the function.  On a page without [Xrm] the result is the failure
    record of the guard, with its fixed message and no stack. *)
Theorem C1_execute (X R : Type) (window_Xrm : option X)
    (eval_call : text -> X -> X -> completion R)
    (executeScript : Z -> (text -> option (result (ExecutionResult R))) -> text ->
                     option (result (list (InjectionResult R))))
    (tabId : Z) (copy : R -> R) (src : text) :
  injects executeScript tabId copy ->
  let run := runInMainWorld window_Xrm eval_call executeScript tabId (Some src) in
  let program :=
    lit ("(async (ctx, Xrm) => {" +:+ nl +:+ dquote +:+ "use strict" +:+ dquote +:+ ";" +:+ nl)
    ++ src ++ lit (nl +:+ "})") in
  (forall xrm, window_Xrm = Some xrm ->
     (forall out, eval_call program xrm xrm = Fulfils out ->
        run = Some (Ok (Some (Success (copy out))))) /\
     (forall e m st, eval_call program xrm xrm = Rejects e ->
        message_read e = Ok (Printed (Ok m)) \/
        (message_read e = Ok Nullish /\ converted e = Ok m) ->
        stack_read e = Ok (Printed (Ok st)) \/
        (stack_read e = Ok Nullish /\ st = []) ->
        run = Some (Ok (Some (Failure m (Some st))))) /\
     (forall m st, eval_call program xrm xrm = Rejects (ErrorObject m st) ->
        run = Some (Ok (Some (Failure m (Some st))))) /\
     (forall v, eval_call program xrm xrm = Rejects (Thrown (VStr v)) ->
        run = Some (Ok (Some (Failure (lit v) (Some [])))))) /\
  (window_Xrm = None ->
     run = Some (Ok (Some (Failure
             (lit "Xrm not found on this page (are you on a D365/Model-driven app tab?).")
             None)))).
Proof.
  intros Hhost run program. subst run.
  change program with (wrapped src). clear program.
  unfold runInMainWorld.
  assert (Hrun : forall r, injected window_Xrm eval_call src = Some (Ok r) ->
            match executeScript tabId (injected window_Xrm eval_call) src with
            | None => None
            | Some (Throw e) => Some (Throw e)
            | Some (Ok []) => Some (Throw TypeError)
            | Some (Ok (first :: _)) => Some (Ok (injection_result first))
            end = Some (Ok (Some (copied copy r)))).
  { intros r Hr. rewrite (Hhost _ _ _ Hr). reflexivity. }
  split.
  - intros xrm HX. split; [|split; [|split]].
    + intros out Hout. apply (Hrun (Success out)).
      unfold injected. rewrite HX, Hout. reflexivity.
    + intros e m st He Hm Hst. apply (Hrun (Failure m (Some st))).
      assert (Hmessage : message_of e = Ok m).
      { unfold message_of. destruct Hm as [-> | [-> ->]]; reflexivity. }
      assert (Hstack : stack_of e = Ok st).
      { unfold stack_of. destruct Hst as [-> | [-> ->]]; reflexivity. }
      unfold injected. rewrite HX, He, Hmessage, Hstack. reflexivity.
    + intros m st He. apply (Hrun (Failure m (Some st))).
      unfold injected. rewrite HX, He. reflexivity.
    + intros v He. apply (Hrun (Failure (lit v) (Some []))).
      unfold injected. rewrite HX, He. reflexivity.
  - intros HX. apply (Hrun (Failure no_Xrm None)).
    unfold injected. rewrite HX. reflexivity.
Qed.

(** Source text that returns the literal 42, on a page with [Xrm]. *)
Lemma C1_execute_witness :
  runInMainWorld (Some tt) (page (Fulfils (VNum 42))) chrome_executeScript 1
                 (Some (lit "return 42;"))
  = Some (Ok (Some (Success (VNum 42)))).
Proof.
  refine (proj1 (proj1 (C1_execute unit value (Some tt) (page (Fulfils (VNum 42)))
                          chrome_executeScript 1 (fun v => v) (lit "return 42;") _)
                   tt eq_refl) (VNum 42) eq_refl).
  intros func arg r Hr. unfold chrome_executeScript. rewrite Hr. reflexivity.
Defined.

(** ** The bulk-update snippet *)

Lemma slice_take_drop {A : Type} (arr : list A) (i n : nat) :
  slice arr i (i + n) = take n (drop i arr).
Proof. unfold slice. f_equal. lia. Qed.

Lemma chunk_from_concat {A : Type} (arr : list A) (size : positive) (i : nat) :
  concat (chunk_from arr size i) = drop i arr.
Proof.
  funelim (chunk_from arr size i).
  - simpl. rewrite H, slice_take_drop.
    rewrite <- drop_drop. apply take_drop.
  - simpl. symmetry. apply drop_ge. lia.
Qed.

Lemma chunk_from_sizes {A : Type} (arr : list A) (size : positive) (i : nat) :
  Forall (fun c => (1 <= length c <= Pos.to_nat size)%nat) (chunk_from arr size i).
Proof.
  funelim (chunk_from arr size i).
  - constructor; [|assumption].
    rewrite slice_take_drop, length_take, length_drop. lia.
  - constructor.
Qed.

Lemma submit_accepted (post : list (list target) -> list target -> result post_response)
    (done rest : list (list target)) (st : progress) :
  accepted_all post (posted st) done ->
  submit post st (done ++ rest)
  = submit post
      {| processedCount := (processedCount st + length (concat done))%nat;
         displayed := displayed st
                      ++ map updated_line (running_totals (processedCount st) done);
         posted := posted st ++ done |} rest.
Proof.
  revert st. induction done as [|c done IH]; intros st Hdone.
  - simpl. rewrite Nat.add_0_r, !app_nil_r. destruct st; reflexivity.
  - destruct Hdone as [(res & t & Hpost & Htext & Hok) Hdone].
    cbn [app submit]. unfold updateMultipleChunk. rewrite Hpost, Htext, Hok.
    cbn [negb processedCount displayed posted]. rewrite IH by exact Hdone.
    cbn [processedCount displayed posted concat running_totals map].
    rewrite length_app, <- !app_assoc. cbn [app].
    f_equal. f_equal. lia.
Qed.

Lemma updateMultipleChunk_rejected
    (post : list (list target) -> list target -> result post_response)
    (c : list target) (st : progress) :
  ~ accepted post (posted st) c ->
  exists e d, updateMultipleChunk post st c
              = ({| processedCount := processedCount st; displayed := d;
                    posted := posted st ++ [c] |}, Throw e).
Proof.
  intros Hrej. unfold updateMultipleChunk.
  destruct (post (posted st) c) as [res|e] eqn:Hpost; [|exists e, (displayed st); reflexivity].
  destruct (post_text res) as [t|e] eqn:Htext; [|exists e, (displayed st); reflexivity].
  destruct (post_ok res) eqn:Hok.
  - exfalso. apply Hrej. exists res, t. auto.
  - cbn [negb processedCount displayed posted]. eexists. eexists. reflexivity.
Qed.

(** C9. The update targets are cut into consecutive chunks of between 1
    and 200 elements whose concatenation is the list of targets; the chunks
    are posted in order, each once; at the first chunk the endpoint does not
    accept the snippet throws: the payloads sent are the chunks up to that
    one and no later one, and the count processed covers exactly the chunks
    accepted before it.  When the response is not successful the error is
    "UpdateMultiple failed: <status> <statusText>", and the texts shown are
    the "Submitting" line, one "Updated <n> contact(s)" line per accepted
    chunk with the running total, and the "UpdateMultiple failed" line with
    the response text; when the POST or the reading of its body fails, that
    exception is thrown and only the lines before are shown.  When every
    chunk is accepted all are sent, in order, and the last text shown is
    the number of targets with "records processed.". *)
Theorem C9_bulk_update_chunks
    (post : list (list target) -> list target -> result post_response)
    (contactIds : list string) :
  let targets := buildTargets contactIds "mag_hascriticalinsights" false in
  let chunks := chunk targets 200 in
  let out := process post contactIds in
  let count (n : nat) := Number_toString (Z.of_nat n) in
  let submitting :=
    lit (nl +:+ "Submitting " +:+ count (length targets) +:+ " updates in " +:+
         count (length chunks) +:+ " request(s)...") in
  let updated (n : nat) := lit (nl +:+ "   Updated " +:+ count n +:+ " contact(s)") in
  concat chunks = targets /\
  Forall (fun c => (1 <= length c <= 200)%nat) chunks /\
  (forall done c rest,
     chunks = done ++ c :: rest -> accepted_all post [] done ->
     ~ accepted post done c ->
     (exists e, snd out = Throw e) /\
     posted (fst out) = done ++ [c] /\
     processedCount (fst out) = length (concat done)) /\
  (forall done c rest res t,
     chunks = done ++ c :: rest -> accepted_all post [] done ->
     post done c = Ok res -> post_text res = Ok t -> post_ok res = false ->
     snd out = Throw (Error (lit ("UpdateMultiple failed: " +:+
                                  Number_toString (post_status res) +:+ " " +:+
                                  post_statusText res))) /\
     displayed (fst out)
     = submitting :: map updated (running_totals 0 done)
       ++ [lit (nl +:+ nl +:+ "UpdateMultiple failed: " +:+
                Number_toString (post_status res) +:+ ", " +:+
                post_statusText res +:+ ", ") ++ t]) /\
  (forall done c rest e,
     chunks = done ++ c :: rest -> accepted_all post [] done ->
     post done c = Throw e \/
     (exists res, post done c = Ok res /\ post_text res = Throw e) ->
     snd out = Throw e /\
     displayed (fst out) = submitting :: map updated (running_totals 0 done)) /\
  (accepted_all post [] chunks ->
     snd out = Ok tt /\ posted (fst out) = chunks /\
     processedCount (fst out) = length targets /\
     displayed (fst out)
     = submitting :: map updated (running_totals 0 chunks)
       ++ [lit (nl +:+ nl +:+ count (length targets) +:+ " records processed.")]).
Proof.
  intros targets chunks out count submitting updated.
  subst count submitting updated. cbv beta.
  change (lit (nl +:+ "Submitting " +:+ Number_toString (Z.of_nat (length targets)) +:+
               " updates in " +:+ Number_toString (Z.of_nat (length chunks)) +:+
               " request(s)..."))
    with (submitting_line (length targets) (length chunks)).
  change (fun n : nat => lit (nl +:+ "   Updated " +:+ Number_toString (Z.of_nat n) +:+
                              " contact(s)"))
    with updated_line.
  assert (Hcat : concat chunks = targets).
  { subst chunks. unfold chunk. rewrite chunk_from_concat. reflexivity. }
  split; [exact Hcat|]. split; [apply (chunk_from_sizes targets 200 0)|].
  assert (Hsub : forall done c rest,
            chunks = done ++ c :: rest -> accepted_all post [] done ->
            process post contactIds
            = match updateMultipleChunk post
                      {| processedCount := length (concat done);
                         displayed := submitting_line (length targets) (length chunks)
                                      :: map updated_line (running_totals 0 done);
                         posted := done |} c with
              | (st', Ok _) =>
                  match submit post st' rest with
                  | (st'', Ok _) =>
                      ({| processedCount := processedCount st'';
                          displayed := displayed st'' ++ [processed_line (length targets)];
                          posted := posted st'' |}, Ok tt)
                  | (st'', Throw e) => (st'', Throw e)
                  end
              | (st', Throw e) => (st', Throw e)
              end).
  { intros done c rest Hsplit Hdone. unfold process. fold targets. fold chunks.
    rewrite Hsplit at 2. rewrite submit_accepted by exact Hdone. cbn [submit].
    cbn [processedCount displayed posted app Nat.add].
    destruct (updateMultipleChunk _ _ c) as [st' [u|e]]; reflexivity. }
  split; [|split; [|split]].
  - intros done c rest Hsplit Hdone Hrej. subst out.
    rewrite (Hsub done c rest Hsplit Hdone).
    destruct (updateMultipleChunk_rejected post c
                {| processedCount := length (concat done);
                   displayed := submitting_line (length targets) (length chunks)
                                :: map updated_line (running_totals 0 done);
                   posted := done |} Hrej) as (e & d & Hupd).
    cbn [processedCount displayed posted] in Hupd. rewrite Hupd.
    cbn [fst snd posted processedCount]. repeat split. exists e. reflexivity.
  - intros done c rest res t Hsplit Hdone Hpost Htext Hok. subst out.
    rewrite (Hsub done c rest Hsplit Hdone).
    unfold updateMultipleChunk. cbn [posted]. rewrite Hpost, Htext, Hok.
    cbn [negb processedCount displayed posted fst snd app]. split; reflexivity.
  - intros done c rest e Hsplit Hdone Hfail. subst out.
    rewrite (Hsub done c rest Hsplit Hdone).
    unfold updateMultipleChunk. cbn [posted].
    destruct Hfail as [Hpost | (res & Hpost & Htext)].
    + rewrite Hpost. split; reflexivity.
    + rewrite Hpost, Htext. split; reflexivity.
  - intros Hall. subst out. unfold process. fold targets. fold chunks.
    pose proof (submit_accepted post chunks [] {| processedCount := 0;
                  displayed := [submitting_line (length targets) (length chunks)];
                  posted := [] |} Hall) as Hsubmit.
    rewrite app_nil_r in Hsubmit. rewrite Hsubmit.
    cbn [submit processedCount displayed posted fst snd app Nat.add].
    rewrite Hcat. repeat split.
Qed.

(** Six hundred targets, all alike, and an endpoint that refuses the third
    request - a chunk equal to the two it accepted: three chunks are sent,
    the third throws, and the count, processed and shown, stays at the 400
    targets of the two chunks accepted before it. *)
Lemma C9_bulk_update_chunks_witness :
  snd (process refuse_third (repeat "id" 600))
  = Throw (Error (lit "UpdateMultiple failed: 500 Server Error")) /\
  displayed (fst (process refuse_third (repeat "id" 600)))
  = [lit (nl +:+ "Submitting 600 updates in 3 request(s)...");
     lit (nl +:+ "   Updated 200 contact(s)");
     lit (nl +:+ "   Updated 400 contact(s)");
     lit (nl +:+ nl +:+ "UpdateMultiple failed: 500, Server Error, busy")] /\
  length (posted (fst (process refuse_third (repeat "id" 600)))) = 3%nat /\
  processedCount (fst (process refuse_third (repeat "id" 600))) = 400%nat.
Proof.
  pose (targets := buildTargets (repeat "id" 600) "mag_hascriticalinsights" false).
  assert (Hsplit : chunk targets 200
                   = [take 200 targets; take 200 (drop 200 targets)]
                     ++ drop 400 targets :: []).
  { vm_compute. reflexivity. }
  assert (Hdone : accepted_all refuse_third []
                    [take 200 targets; take 200 (drop 200 targets)]).
  { repeat split; exists accepted_response, []; repeat split. }
  destruct (proj1 (proj2 (proj2 (proj2 (C9_bulk_update_chunks refuse_third (repeat "id" 600)))))
              _ _ _ refused_response (lit "busy") Hsplit Hdone eq_refl eq_refl eq_refl)
    as [Hthrow Hshown].
  destruct (proj1 (proj2 (proj2 (C9_bulk_update_chunks refuse_third (repeat "id" 600))))
              _ _ _ Hsplit Hdone) as (_ & Hposted & Hcount).
  { intros (res & t & Hpost & _ & Hok). injection Hpost as <-. discriminate Hok. }
  split; [exact Hthrow|]. split; [exact Hshown|].
  rewrite Hposted, Hcount. split; reflexivity.
Defined.

(** ** The manifest loader: the order of the loaded snippets *)

Lemma compare_names_descriptors (cmp : string -> string -> Z) (a b : value) :
  is_descriptor a = true -> is_descriptor b = true ->
  compare_names cmp a b = Ok (cmp (name_key a) (name_key b)).
Proof.
  destruct a as [| | | | | |pa]; try discriminate.
  destruct b as [| | | | | |pb]; try discriminate.
  unfold is_descriptor, compare_names, name_key. simpl.
  destruct (or_else (assoc "name" pa) (VStr "")); try discriminate.
  destruct (or_else (assoc "name" pb) (VStr "")); try discriminate.
  reflexivity.
Qed.

Section SortProperties.
Variable cmp : string -> string -> Z.
Hypothesis cmp_total : forall a b, cmp a b <= 0 \/ cmp b a <= 0.
Hypothesis cmp_trans : forall a b c, cmp a b <= 0 -> cmp b c <= 0 -> cmp a c <= 0.

Let descriptors (l : list value) : Prop := Forall (fun a => is_descriptor a = true) l.

Lemma tied_not_both (k : string) (x y : value) :
  ~ name_le cmp x y -> tied cmp k x = true -> tied cmp k y = true -> False.
Proof.
  unfold name_le, tied. intros Hxy Hx Hy.
  apply andb_true_iff in Hx as [_ Hxk]. apply andb_true_iff in Hy as [Hky _].
  apply Z.leb_le in Hxk, Hky. apply Hxy. exact (cmp_trans _ _ _ Hxk Hky).
Qed.

Lemma insert_spec (x : value) (s : list value) :
  is_descriptor x = true -> descriptors s -> StronglySorted (name_le cmp) s ->
  exists r, insert cmp x s = Ok r /\ Permutation (x :: s) r /\
            StronglySorted (name_le cmp) r /\
            forall k, List.filter (tied cmp k) r = List.filter (tied cmp k) (x :: s).
Proof.
  intros Hx Hs Hsorted. induction s as [|y rest IH].
  - exists [x]. repeat split; auto. repeat constructor.
  - inversion Hs as [|? ? Hy Hrest]; subst.
    inversion Hsorted as [|? ? Hsrest Hyle]; subst.
    cbn [insert]. rewrite compare_names_descriptors by assumption. cbn [bind].
    destruct (Z.leb_spec (cmp (name_key x) (name_key y)) 0) as [Hle | Hgt].
    + exists (x :: y :: rest). repeat split; auto.
      constructor; [assumption|]. constructor; [exact Hle|].
      eapply Forall_impl; [exact Hyle|]. intros z Hz.
      unfold name_le in *. eapply cmp_trans; eassumption.
    + destruct (IH Hrest Hsrest) as (r & Hr & Hperm & Hsr & Hfilter).
      rewrite Hr. cbn [bind]. exists (y :: r). repeat split.
      * rewrite <- Hperm. apply perm_swap.
      * constructor; [assumption|].
        eapply Permutation_Forall; [exact Hperm|]. constructor; [|assumption].
        unfold name_le. destruct (cmp_total (name_key y) (name_key x)); lia.
      * intros k. cbn [List.filter]. rewrite Hfilter. cbn [List.filter].
        destruct (tied cmp k y) eqn:Ey, (tied cmp k x) eqn:Ex; try reflexivity.
        exfalso. apply (tied_not_both k x y); try assumption.
        unfold name_le. lia.
Qed.

Lemma sort_spec (l : list value) :
  descriptors l ->
  exists r, sort cmp l = Ok r /\ Permutation l r /\
            StronglySorted (name_le cmp) r /\
            forall k, List.filter (tied cmp k) r = List.filter (tied cmp k) l.
Proof.
  intros Hl. induction l as [|x rest IH].
  - exists []. repeat split; auto. constructor.
  - inversion Hl as [|? ? Hx Hrest]; subst.
    destruct (IH Hrest) as (s & Hs & Hperm & Hsorted & Hfilter).
    destruct (insert_spec x s Hx) as (r & Hr & Hperm' & Hsorted' & Hfilter').
    { eapply Permutation_Forall; eassumption. }
    { assumption. }
    cbn [sort]. rewrite Hs. cbn [bind]. exists r. repeat split; auto.
    + rewrite <- Hperm'. constructor. exact Hperm.
    + intros k. rewrite Hfilter'. cbn [List.filter]. rewrite Hfilter. reflexivity.
Qed.
End SortProperties.

(** The model of [sort] loses no generality: two arrangements of the same
    descriptors that are both ordered and both keep the order of tied
    elements are equal. *)
Lemma stable_sort_unique (cmp : string -> string -> Z) :
  (forall a b, cmp a b <= 0 \/ cmp b a <= 0) ->
  (forall a b c, cmp a b <= 0 -> cmp b c <= 0 -> cmp a c <= 0) ->
  forall r1 r2 : list value,
  Permutation r1 r2 ->
  StronglySorted (name_le cmp) r1 -> StronglySorted (name_le cmp) r2 ->
  (forall k, List.filter (tied cmp k) r1 = List.filter (tied cmp k) r2) ->
  r1 = r2.
Proof.
  intros Htotal Htrans.
  assert (Hrefl : forall a, cmp a a <= 0).
  { intros a. destruct (Htotal a a); assumption. }
  induction r1 as [|x r1 IH]; intros r2 Hperm Hs1 Hs2 Hfilter.
  - apply Permutation_nil in Hperm. congruence.
  - destruct r2 as [|y r2].
    { symmetry in Hperm. apply Permutation_nil in Hperm. discriminate. }
    inversion Hs1 as [|? ? Hs1' Hx]; subst. inversion Hs2 as [|? ? Hs2' Hy]; subst.
    assert (Hxy : name_le cmp x y).
    { assert (Hin : In y (x :: r1)).
      { eapply Permutation_in; [symmetry; exact Hperm|]. left. reflexivity. }
      destruct Hin as [-> | Hin]; [apply Hrefl|].
      rewrite Forall_forall in Hx. apply Hx. apply list_elem_of_In. exact Hin. }
    assert (Hyx : name_le cmp y x).
    { assert (Hin : In x (y :: r2)).
      { eapply Permutation_in; [exact Hperm|]. left. reflexivity. }
      destruct Hin as [-> | Hin]; [apply Hrefl|].
      rewrite Forall_forall in Hy. apply Hy. apply list_elem_of_In. exact Hin. }
    assert (Heq : x = y).
    { specialize (Hfilter (name_key x)). cbn [List.filter] in Hfilter.
      assert (Htx : tied cmp (name_key x) x = true).
      { unfold tied. rewrite (proj2 (Z.leb_le _ _) (Hrefl _)). reflexivity. }
      assert (Hty : tied cmp (name_key x) y = true).
      { unfold tied, name_le in *.
        rewrite (proj2 (Z.leb_le _ _) Hxy), (proj2 (Z.leb_le _ _) Hyx). reflexivity. }
      rewrite Htx, Hty in Hfilter. congruence. }
    subst y. f_equal. apply IH; try assumption.
    + eapply Permutation_cons_inv. exact Hperm.
    + intros k. specialize (Hfilter k). cbn [List.filter] in Hfilter.
      destruct (tied cmp k x); congruence.
Qed.

Lemma sort_example (cmp : string -> string -> Z) :
  0 < cmp "Beta" "alpha" ->
  sort cmp [desc_Beta; desc_alpha] = Ok [desc_alpha; desc_Beta].
Proof.
  intros Hgt. cbn [sort insert bind].
  rewrite compare_names_descriptors by reflexivity.
  change (name_key desc_Beta) with "Beta". change (name_key desc_alpha) with "alpha".
  cbn [bind]. destruct (Z.leb_spec (cmp "Beta" "alpha") 0); [lia|reflexivity].
Qed.

Lemma collation_le (x y : string) :
  Z_of_comparison (OrderedTypeEx.String_as_OT.cmp x y) <= 0
  <-> x = y \/ OrderedTypeEx.String_as_OT.lt x y.
Proof.
  destruct (OrderedTypeEx.String_as_OT.cmp x y) eqn:E; simpl; split; try lia.
  - intros _. left. apply OrderedTypeEx.String_as_OT.cmp_eq. exact E.
  - intros _. right. apply OrderedTypeEx.String_as_OT.cmp_lt. exact E.
  - intros [Heq | Hlt].
    + apply OrderedTypeEx.String_as_OT.cmp_eq in Heq. congruence.
    + apply OrderedTypeEx.String_as_OT.cmp_lt in Hlt. congruence.
Qed.

Lemma root_compare_total (a b : string) :
  root_compare a b <= 0 \/ root_compare b a <= 0.
Proof.
  unfold root_compare.
  rewrite (OrderedTypeEx.String_as_OT.cmp_antisym (sort_key a) (sort_key b)).
  destruct (OrderedTypeEx.String_as_OT.cmp (sort_key b) (sort_key a)); simpl; lia.
Qed.

Lemma root_compare_trans (a b c : string) :
  root_compare a b <= 0 -> root_compare b c <= 0 -> root_compare a c <= 0.
Proof.
  unfold root_compare. rewrite !collation_le.
  intros [-> | Hab] [<- | Hbc]; auto.
  right. eapply OrderedTypeEx.String_as_OT.lt_trans; eassumption.
Qed.

(** C3, as stated, fails: names that differ only in case are tied under a
    case-insensitive compare, yet [localeCompare] orders them (lower case
    first in the default collation), so that the manifest order of "A" and
    "a" is not kept. *)
Lemma C3_manifest_order_counterexample :
  toLowerCase "A" = toLowerCase "a" /\
  snd (loadManifest (manifest_host (lit "{A,a}")) None
         (parse_one (lit "{A,a}") (VObj [("snippets", VArr [desc_upper_A; desc_lower_a])]))
         root_compare DEFAULT_CONFIG)
  = Ok ([desc_lower_a; desc_upper_A],
        rawUrl DEFAULT_CONFIG (VStr (manifestPath DEFAULT_CONFIG))) /\
  [desc_lower_a; desc_upper_A] <> [desc_upper_A; desc_lower_a].
Proof. repeat split; try (vm_compute; reflexivity). discriminate. Qed.

(** C3, amended.  For a manifest whose [snippets] array holds descriptors
    (objects whose name is absent or a string), [loadManifest] returns
    exactly the manifest's descriptors - a permutation of them, of the same
    length - ordered by [name || ""] under the host's [localeCompare], a
    total preorder; descriptors whose names the collation deems equal keep
    their manifest order; a descriptor without a name has the empty key,
    which comes first when the collation puts the empty string first; and
    with a collation that puts "alpha" before "Beta" the example manifest
    loads as [alpha, Beta]. *)
Theorem C3_manifest_order (fetch : request -> result response)
    (githubToken : option string) (JSON_parse : text -> result value)
    (cmp : string -> string -> Z) (cfg : Config) (t : text) (m : value)
    (elems : list value) :
  (forall a b, cmp a b <= 0 \/ cmp b a <= 0) ->
  (forall a b c, cmp a b <= 0 -> cmp b c <= 0 -> cmp a c <= 0) ->
  snd (fetchTextWithFallback fetch githubToken cfg
         (rawUrl cfg (VStr (manifestPath cfg)))) = Ok t ->
  JSON_parse t = Ok m ->
  get_opt m "snippets" = VArr elems ->
  Forall (fun a => is_descriptor a = true) elems ->
  exists loaded,
    snd (loadManifest fetch githubToken JSON_parse cmp cfg)
    = Ok (loaded, rawUrl cfg (VStr (manifestPath cfg))) /\
    length loaded = length elems /\
    Permutation elems loaded /\
    StronglySorted (name_le cmp) loaded /\
    (forall k, List.filter (tied cmp k) loaded = List.filter (tied cmp k) elems) /\
    (forall a, truthy (get_opt a "name") = false ->
       name_key a = "" /\ ((forall s, cmp "" s <= 0) -> forall b, name_le cmp a b)) /\
    (elems = [desc_Beta; desc_alpha] -> 0 < cmp "Beta" "alpha" ->
       loaded = [desc_alpha; desc_Beta]).
Proof.
  intros Htotal Htrans Hfetch Hparse Hsnippets Hdesc.
  destruct (sort_spec cmp Htotal Htrans elems Hdesc)
    as (loaded & Hsort & Hperm & Hsorted & Hstable).
  exists loaded.
  assert (Hm : truthy m = true).
  { destruct m; simpl in Hsnippets; try discriminate. reflexivity. }
  repeat split.
  - unfold loadManifest.
    destruct (fetchTextWithFallback _ _ _ _) as [reqs r]. simpl in Hfetch. subst r.
    cbn [snd bind]. unfold parse_manifest. rewrite Hparse. cbn [bind].
    rewrite Hm, Hsnippets. cbn [negb]. rewrite Hsort. reflexivity.
  - symmetry. apply Permutation_length. exact Hperm.
  - exact Hperm.
  - exact Hsorted.
  - exact Hstable.
  - unfold name_key, or_else. rewrite H. reflexivity.
  - intros Hleast b. unfold name_le, name_key at 1, or_else. rewrite H. apply Hleast.
  - intros -> Hgt. rewrite (sort_example cmp Hgt) in Hsort. congruence.
Qed.

(** The example manifest of the specification under the default collation. *)
Lemma C3_manifest_order_witness :
  snd (loadManifest (manifest_host (lit "{Beta,alpha}")) None
         (parse_one (lit "{Beta,alpha}") example_manifest) root_compare DEFAULT_CONFIG)
  = Ok ([desc_alpha; desc_Beta],
        rawUrl DEFAULT_CONFIG (VStr (manifestPath DEFAULT_CONFIG))).
Proof.
  destruct (C3_manifest_order (manifest_host (lit "{Beta,alpha}")) None
              (parse_one (lit "{Beta,alpha}") example_manifest) root_compare
              DEFAULT_CONFIG (lit "{Beta,alpha}") example_manifest
              [desc_Beta; desc_alpha]
              root_compare_total root_compare_trans eq_refl eq_refl eq_refl
              ltac:(repeat constructor))
    as (loaded & Hload & _ & _ & _ & _ & _ & Hexample).
  rewrite Hload. rewrite (Hexample eq_refl ltac:(reflexivity)). reflexivity.
Defined.

(** ** Base64: decoding inverts encoding *)

Lemma list_ind3 {A : Type} (P : list A -> Prop) :
  P [] -> (forall a, P [a]) -> (forall a b, P [a; b]) ->
  (forall a b c l, P l -> P (a :: b :: c :: l)) ->
  forall l, P l.
Proof.
  intros H0 H1 H2 H3 l.
  assert (H : P l /\ (forall a, P (a :: l)) /\ (forall a b, P (a :: b :: l))).
  { induction l as [|x l (IH0 & IH1 & IH2)]; [auto|].
    repeat split; auto. }
  apply H.
Qed.

Lemma below_64 (f : Z -> bool) :
  forallb f (map Z.of_nat (seq 0 64)) = true ->
  forall s, sextet s -> f s = true.
Proof.
  intros Hall s [Hlo Hhi]. rewrite forallb_forall in Hall. apply Hall.
  apply in_map_iff. exists (Z.to_nat s). split; [lia|]. apply in_seq. lia.
Qed.

Lemma char_of_sextet_spec (s : Z) :
  sextet s ->
  Base64.sextet_of_char (Base64.char_of_sextet s) = Some s /\
  Base64.is_pad (Base64.char_of_sextet s) = false /\
  Base64.is_ascii_whitespace (Base64.char_of_sextet s) = false.
Proof.
  intros Hs.
  pose proof (below_64
    (fun s => match Base64.sextet_of_char (Base64.char_of_sextet s) with
              | Some s' => s' =? s
              | None => false
              end
              && negb (Base64.is_pad (Base64.char_of_sextet s))
              && negb (Base64.is_ascii_whitespace (Base64.char_of_sextet s)))
    ltac:(vm_compute; reflexivity) s Hs) as H.
  cbv beta in H. apply andb_true_iff in H as [H Hws]. apply andb_true_iff in H as [H Hpad].
  destruct (Base64.sextet_of_char (Base64.char_of_sextet s)) as [s'|]; [|discriminate].
  apply Z.eqb_eq in H. subst s'.
  apply negb_true_iff in Hws, Hpad. auto.
Qed.

Lemma sextets_of_bytes_range (bs : list Z) :
  Forall byte bs -> Forall sextet (Base64.sextets_of_bytes bs).
Proof.
  induction bs as [| a | a b | a b c l IH] using list_ind3; intros Hbs; cbn.
  - constructor.
  - inversion Hbs as [|? ? Ha _]; subst. unfold byte, sextet in *.
    repeat constructor; Z.div_mod_to_equations; lia.
  - inversion Hbs as [|? ? Ha Hbs']; subst. inversion Hbs' as [|? ? Hb _]; subst.
    unfold byte, sextet in *. repeat constructor; Z.div_mod_to_equations; lia.
  - inversion Hbs as [|? ? Ha Hbs1]; subst. inversion Hbs1 as [|? ? Hb Hbs2]; subst.
    inversion Hbs2 as [|? ? Hc Hl]; subst. unfold byte, sextet in *.
    repeat (constructor; [Z.div_mod_to_equations; lia|]). apply IH. exact Hl.
Qed.

Lemma bytes_of_sextets_of_bytes (bs : list Z) :
  Forall byte bs -> Base64.bytes_of_sextets (Base64.sextets_of_bytes bs) = bs.
Proof.
  induction bs as [| a | a b | a b c l IH] using list_ind3; intros Hbs; cbn.
  - reflexivity.
  - inversion Hbs as [|? ? Ha _]; subst. unfold byte in *.
    f_equal. Z.div_mod_to_equations; lia.
  - inversion Hbs as [|? ? Ha Hbs']; subst. inversion Hbs' as [|? ? Hb _]; subst.
    unfold byte in *.
    f_equal; [|f_equal]; Z.div_mod_to_equations; lia.
  - inversion Hbs as [|? ? Ha Hbs1]; subst. inversion Hbs1 as [|? ? Hb Hbs2]; subst.
    inversion Hbs2 as [|? ? Hc Hl]; subst. unfold byte in *.
    rewrite (IH Hl).
    f_equal; [|f_equal; [|f_equal]]; Z.div_mod_to_equations; lia.
Qed.

Lemma padding_step (a b c : Z) (l : list Z) :
  Base64.padding (a :: b :: c :: l) = Base64.padding l.
Proof.
  unfold Base64.padding. cbn [length].
  replace (S (S (S (length l)))) with (length l + 1 * 3)%nat by lia.
  rewrite Nat.Div0.mod_add. reflexivity.
Qed.

(** The shape of an encoding: the characters, then no padding, [==] or [=]. *)
Lemma encoding_shape (bs : list Z) :
  let n := length (Base64.sextets_of_bytes bs) in
  (Base64.padding bs = [] /\ exists k, n = (4 * k)%nat) \/
  (Base64.padding bs = ["="%char; "="%char] /\ exists k, n = (4 * k + 2)%nat) \/
  (Base64.padding bs = ["="%char] /\ exists k, n = (4 * k + 3)%nat).
Proof.
  induction bs as [| a | a b | a b c l IH] using list_ind3.
  - left. split; [reflexivity|]. exists 0%nat. reflexivity.
  - right. left. split; [reflexivity|]. exists 0%nat. reflexivity.
  - right. right. split; [reflexivity|]. exists 0%nat. reflexivity.
  - rewrite padding_step. cbn [Base64.sextets_of_bytes length]. cbv zeta in IH.
    destruct IH as [[Hp [k Hk]] | [[Hp [k Hk]] | [Hp [k Hk]]]]; rewrite Hp, Hk;
      [left | right; left | right; right]; (split; [reflexivity|]);
      exists (S k); lia.
Qed.

Lemma mod4_add (k r : nat) : ((4 * k + r) mod 4 = r mod 4)%nat.
Proof.
  replace (4 * k + r)%nat with (r + k * 4)%nat by lia.
  apply Nat.Div0.mod_add.
Qed.

Lemma strip_padding_encoding (bs : list Z) :
  Forall byte bs ->
  let chars := map Base64.char_of_sextet (Base64.sextets_of_bytes bs) in
  Base64.strip_padding (chars ++ Base64.padding bs) = chars /\
  (length chars mod 4 <> 1)%nat.
Proof.
  intros Hbs chars.
  assert (Hnopad : Forall (fun c => Base64.is_pad c = false) (rev chars)).
  { apply Forall_rev. subst chars. apply Forall_map.
    eapply Forall_impl; [apply sextets_of_bytes_range; exact Hbs|].
    intros s Hs. apply (char_of_sextet_spec s Hs). }
  assert (Hlen : length chars = length (Base64.sextets_of_bytes bs)).
  { subst chars. apply length_map. }
  unfold Base64.strip_padding. rewrite length_app, Hlen.
  destruct (encoding_shape bs) as [[Hp [k Hk]] | [[Hp [k Hk]] | [Hp [k Hk]]]];
    rewrite Hp, Hk; cbn [length].
  - rewrite !mod4_add, app_nil_r.
    split; [|rewrite <- (Nat.add_0_r (4 * k)), mod4_add; discriminate].
    change (Nat.eqb (0 mod 4) 0) with true. cbv iota.
    destruct (rev chars) as [|p1 [|p2 r]] eqn:E; try reflexivity.
    inversion Hnopad as [|? ? Hp1 _]; subst. rewrite Hp1. reflexivity.
  - replace (4 * k + 2 + 2)%nat with (4 * S k + 0)%nat by lia. rewrite !mod4_add.
    change (Nat.eqb (0 mod 4) 0) with true. cbv iota.
    rewrite rev_app_distr. cbn [rev app Base64.is_pad].
    change (Ascii.eqb "=" "=") with true. cbv iota.
    split; [apply rev_involutive|]. discriminate.
  - replace (4 * k + 3 + 1)%nat with (4 * S k + 0)%nat by lia. rewrite !mod4_add.
    change (Nat.eqb (0 mod 4) 0) with true. cbv iota.
    rewrite rev_app_distr. cbn [rev app].
    destruct (rev chars) as [|p2 r] eqn:E.
    + apply (f_equal (@length ascii)) in E. rewrite length_rev, Hlen, Hk in E.
      cbn in E. lia.
    + inversion Hnopad as [|? ? Hp2 _]; subst.
      rewrite Hp2. change (Base64.is_pad "=") with true. cbv iota.
      split; [|discriminate].
      change (rev r ++ [p2]) with (rev (p2 :: r)).
      rewrite <- E. apply rev_involutive.
Qed.

Lemma sextets_of_chars_encoding (ss : list Z) :
  Forall sextet ss ->
  Base64.sextets_of_chars (map Base64.char_of_sextet ss) = Some ss.
Proof.
  induction 1 as [|s ss Hs _ IH]; [reflexivity|].
  cbn [map Base64.sextets_of_chars].
  rewrite (proj1 (char_of_sextet_spec s Hs)), IH. reflexivity.
Qed.

Lemma filter_all {A : Type} (f : A -> bool) (l : list A) :
  Forall (fun x => f x = true) l -> List.filter f l = l.
Proof.
  induction 1 as [|x l Hx _ IH]; [reflexivity|].
  cbn [List.filter]. rewrite Hx, IH. reflexivity.
Qed.

Lemma padding_no_whitespace (bs : list Z) :
  Forall (fun c => negb (Base64.is_ascii_whitespace c) = true) (Base64.padding bs).
Proof.
  unfold Base64.padding.
  destruct (length bs mod 3)%nat as [|[|[|n]]]; repeat constructor.
Qed.

(** [atob] inverts the base64 encoding of a byte sequence. *)
Lemma atob_encode (bs : list Z) :
  Forall byte bs -> Base64.atob (Base64.encode bs) = Ok bs.
Proof.
  intros Hbs. unfold Base64.atob, Base64.encode.
  rewrite list_ascii_of_string_of_list_ascii.
  rewrite filter_all.
  2:{ apply Forall_app. split; [|apply padding_no_whitespace].
      apply Forall_map.
      eapply Forall_impl; [apply sextets_of_bytes_range; exact Hbs|].
      intros s Hs. cbn beta. rewrite (proj2 (proj2 (char_of_sextet_spec s Hs))).
      reflexivity. }
  destruct (strip_padding_encoding bs Hbs) as [Hstrip Hlen]. cbv zeta in Hstrip, Hlen.
  rewrite Hstrip.
  destruct (Nat.eqb_spec (length (map Base64.char_of_sextet (Base64.sextets_of_bytes bs)) mod 4) 1)
    as [E|_]; [contradiction|].
  rewrite sextets_of_chars_encoding by (apply sextets_of_bytes_range; exact Hbs).
  rewrite bytes_of_sextets_of_bytes by exact Hbs. reflexivity.
Qed.

(** ** UTF-8: decoding inverts encoding *)

Lemma lead_1 (b : Z) : 0 <= b <= 127 -> Utf8.lead b = ([b], Utf8.init).
Proof. intros Hb. unfold Utf8.lead. decide_bounds. reflexivity. Qed.

Lemma lead_2 (b : Z) :
  194 <= b <= 223 ->
  Utf8.lead b = ([], {| Utf8.code_point := b mod 32; Utf8.bytes_needed := 1;
                        Utf8.lower := 128; Utf8.upper := 191 |}).
Proof. intros Hb. unfold Utf8.lead. decide_bounds. reflexivity. Qed.

Lemma lead_3 (b : Z) :
  224 <= b <= 239 ->
  Utf8.lead b = ([], {| Utf8.code_point := b mod 16; Utf8.bytes_needed := 2;
                        Utf8.lower := if b =? 224 then 160 else 128;
                        Utf8.upper := if b =? 237 then 159 else 191 |}).
Proof.
  intros Hb. unfold Utf8.lead.
  destruct (Z.leb_spec 0 b); [|lia]. destruct (Z.leb_spec b 127); [lia|].
  destruct (Z.leb_spec 194 b); [|lia]. destruct (Z.leb_spec b 223); [lia|].
  destruct (Z.leb_spec 224 b); [|lia]. destruct (Z.leb_spec b 239); [|lia].
  reflexivity.
Qed.

Lemma lead_4 (b : Z) :
  240 <= b <= 244 ->
  Utf8.lead b = ([], {| Utf8.code_point := b mod 8; Utf8.bytes_needed := 3;
                        Utf8.lower := if b =? 240 then 144 else 128;
                        Utf8.upper := if b =? 244 then 143 else 191 |}).
Proof.
  intros Hb. unfold Utf8.lead.
  destruct (Z.leb_spec 0 b); [|lia]. destruct (Z.leb_spec b 127); [lia|].
  destruct (Z.leb_spec 194 b); [|lia]. destruct (Z.leb_spec b 223); [lia|].
  destruct (Z.leb_spec 224 b); [|lia]. destruct (Z.leb_spec b 239); [lia|].
  destruct (Z.leb_spec 240 b); [|lia]. destruct (Z.leb_spec b 244); [|lia].
  reflexivity.
Qed.

Lemma step_continue (cp lo hi b : Z) (n : nat) :
  lo <= b <= hi ->
  Utf8.step {| Utf8.code_point := cp; Utf8.bytes_needed := S n;
               Utf8.lower := lo; Utf8.upper := hi |} b
  = match n with
    | O => ([cp * 64 + b mod 64], Utf8.init)
    | S _ => ([], {| Utf8.code_point := cp * 64 + b mod 64; Utf8.bytes_needed := n;
                     Utf8.lower := 128; Utf8.upper := 191 |})
    end.
Proof.
  intros Hb. unfold Utf8.step. cbn [Utf8.bytes_needed Utf8.lower Utf8.upper Utf8.code_point].
  destruct (Z.leb_spec lo b); [|lia]. destruct (Z.leb_spec b hi); [|lia].
  reflexivity.
Qed.

Lemma run_cons (st : Utf8.state) (b : Z) (rest : list Z) :
  Utf8.run st (b :: rest)
  = fst (Utf8.step st b) ++ Utf8.run (snd (Utf8.step st b)) rest.
Proof. cbn [Utf8.run]. destruct (Utf8.step st b). reflexivity. Qed.

Lemma step_init (b : Z) : Utf8.step Utf8.init b = Utf8.lead b.
Proof. reflexivity. Qed.

Lemma encode_cp_bytes (c : Z) : scalar c -> Forall byte (Utf8.encode_cp c).
Proof.
  intros Hc. unfold scalar in Hc. unfold Utf8.encode_cp, byte.
  decide_bounds; repeat constructor; Z.div_mod_to_equations; lia.
Qed.

Lemma run_encode_cp (c : Z) (rest : list Z) :
  scalar c ->
  Utf8.run Utf8.init (Utf8.encode_cp c ++ rest) = c :: Utf8.run Utf8.init rest.
Proof.
  intros Hc. unfold scalar in Hc. unfold Utf8.encode_cp.
  destruct (Z.ltb_spec c 128) as [H1|H1];
    [|destruct (Z.ltb_spec c 2048) as [H2|H2];
      [|destruct (Z.ltb_spec c 65536) as [H3|H3]]];
    cbn [app].
  - rewrite run_cons, step_init, lead_1 by lia. reflexivity.
  - rewrite run_cons, step_init, lead_2 by (Z.div_mod_to_equations; lia).
    cbn [fst snd app].
    rewrite run_cons, step_continue by (Z.div_mod_to_equations; lia).
    cbn [fst snd app]. f_equal. Z.div_mod_to_equations; lia.
  - rewrite run_cons, step_init, lead_3 by (Z.div_mod_to_equations; lia).
    cbn [fst snd app].
    rewrite run_cons, step_continue
      by (decide_bounds; Z.div_mod_to_equations; lia).
    cbn [fst snd app].
    rewrite run_cons, step_continue by (Z.div_mod_to_equations; lia).
    cbn [fst snd app]. f_equal. Z.div_mod_to_equations; lia.
  - rewrite run_cons, step_init, lead_4 by (Z.div_mod_to_equations; lia).
    cbn [fst snd app].
    rewrite run_cons, step_continue
      by (decide_bounds; Z.div_mod_to_equations; lia).
    cbn [fst snd app].
    rewrite run_cons, step_continue by (Z.div_mod_to_equations; lia).
    cbn [fst snd app].
    rewrite run_cons, step_continue by (Z.div_mod_to_equations; lia).
    cbn [fst snd app]. f_equal. Z.div_mod_to_equations; lia.
Qed.

Lemma run_encode (t : text) :
  Forall scalar t -> Utf8.run Utf8.init (Utf8.encode t) = t.
Proof.
  induction 1 as [|c t Hc _ IH]; [reflexivity|].
  unfold Utf8.encode in *. cbn [flat_map].
  rewrite run_encode_cp by exact Hc. rewrite IH. reflexivity.
Qed.

Lemma encode_bytes (t : text) : Forall scalar t -> Forall byte (Utf8.encode t).
Proof.
  induction 1 as [|c t Hc _ IH]; [constructor|].
  unfold Utf8.encode in *. cbn [flat_map].
  apply Forall_app. split; [apply encode_cp_bytes; exact Hc | exact IH].
Qed.

(** [TextDecoder] inverts the UTF-8 encoding, up to a leading U+FEFF. *)
Lemma decode_encode (t : text) :
  Forall scalar t ->
  Utf8.decode (Utf8.encode t) = Utf8.strip_bom t.
Proof. intros Ht. unfold Utf8.decode. rewrite run_encode by exact Ht. reflexivity. Qed.

(** ** The fallback: from the contents API's answer to the text *)

Lemma map_mod_bytes (bs : list Z) :
  Forall byte bs -> map (fun c => c mod 256) bs = bs.
Proof.
  induction 1 as [|b bs Hb _ IH]; [reflexivity|].
  cbn [map]. rewrite IH. f_equal. unfold byte in Hb. apply Z.mod_small. lia.
Qed.

Lemma encode_nonempty (t : text) :
  t <> [] -> Base64.encode (Utf8.encode t) <> "".
Proof.
  destruct t as [|c t]; [congruence|]. intros _.
  unfold Utf8.encode. cbn [flat_map].
  assert (Hcp : exists b bs, Utf8.encode_cp c = b :: bs).
  { unfold Utf8.encode_cp.
    destruct (c <? 128); [|destruct (c <? 2048); [|destruct (c <? 65536)]];
      eexists; eexists; reflexivity. }
  destruct Hcp as (b & bs & ->). cbn [app].
  unfold Base64.encode.
  destruct (bs ++ flat_map Utf8.encode_cp t) as [|b2 [|b3 l]]; cbn; discriminate.
Qed.

Lemma decode_contents_encoded (path content : string) (j : value) (t : text) :
  get_opt j "type" = VStr "file" ->
  get_opt j "content" = VStr content ->
  remove_newlines content = Base64.encode (Utf8.encode t) ->
  Forall scalar t -> t <> [] ->
  decode_contents path j = Ok (Utf8.strip_bom t).
Proof.
  intros Htype Hcontent Henc Hscalar Hne.
  assert (Hj : truthy j = true).
  { destruct j; simpl in Htype; try discriminate. reflexivity. }
  assert (Hc : truthy (VStr content) = true).
  { destruct content; [|reflexivity].
    exfalso. apply (encode_nonempty t Hne). rewrite <- Henc. reflexivity. }
  unfold decode_contents. rewrite Hj, Htype, Hcontent, Hc.
  cbn [negb orb is_file String.eqb ToString]. change ("file" =? "file")%string with true.
  cbn [negb orb]. rewrite Henc.
  rewrite atob_encode by (apply encode_bytes; exact Hscalar). cbn [bind].
  rewrite map_mod_bytes by (apply encode_bytes; exact Hscalar).
  rewrite decode_encode by exact Hscalar. reflexivity.
Qed.

(** C7, as stated, fails twice: for the empty text the [content] is the
    empty string, which the check [!json.content] rejects as "non-file
    content"; and for a text that starts with U+FEFF the decoder drops that
    character. *)
Lemma C7_fallback_roundtrip_counterexample :
  (Base64.encode (Utf8.encode []) = "" /\
   snd (fetchViaGithubApi (contents_host "x/y.js" "") DEFAULT_CONFIG
          (rawUrl DEFAULT_CONFIG (VStr "x/y.js")) "token")
   = Throw (Error (non_file "x/y.js"))) /\
  (Base64.encode (Utf8.encode [65279; 97]) = "77u/YQ==" /\
   snd (fetchViaGithubApi (contents_host "x/y.js" "77u/YQ==") DEFAULT_CONFIG
          (rawUrl DEFAULT_CONFIG (VStr "x/y.js")) "token")
   = Ok [97]).
Proof. repeat split; vm_compute; reflexivity. Qed.

(** C7, amended.  For every non-empty Unicode text, when the contents API
    answers a mapped URL with type "file" and a [content] that, line feeds
    removed, is the base64 encoding of the text's UTF-8 bytes, the fallback
    returns the text without a leading U+FEFF - exactly the text when it
    does not begin with U+FEFF - multi-byte characters included. *)
Theorem C7_fallback_roundtrip (fetch : request -> result response) (cfg : Config)
    (u token path content : string) (res : response) (j : value) (t : text) :
  repo_path cfg u = Some path -> path <> "" ->
  fetch {| url := apiUrl cfg path; bearer := getGithubHeaders token |} = Ok res ->
  ok res = true ->
  json res = Ok j ->
  get_opt j "type" = VStr "file" ->
  get_opt j "content" = VStr content ->
  remove_newlines content = Base64.encode (Utf8.encode t) ->
  Forall scalar t -> t <> [] ->
  snd (fetchViaGithubApi fetch cfg u token) = Ok (Utf8.strip_bom t) /\
  (hd_error t <> Some 65279 -> snd (fetchViaGithubApi fetch cfg u token) = Ok t).
Proof.
  intros Hpath Hne Hfetch Hok Hjson Htype Hcontent Henc Hscalar Htext.
  assert (Hres : snd (fetchViaGithubApi fetch cfg u token) = Ok (Utf8.strip_bom t)).
  { unfold fetchViaGithubApi. rewrite Hpath.
    destruct path as [|c p]; [congruence|].
    cbn [snd]. rewrite Hfetch. cbn [bind]. rewrite Hok. cbn [negb].
    rewrite Hjson. cbn [bind].
    apply (decode_contents_encoded _ content); assumption. }
  split; [exact Hres|].
  intros Hbom. rewrite Hres. f_equal.
  destruct t as [|c t']; [congruence|]. unfold Utf8.strip_bom.
  destruct (Z.eqb_spec c 65279) as [-> | _]; [|reflexivity].
  exfalso. apply Hbom. reflexivity.
Qed.

(** A text with two-, three- and four-byte characters, its base64 broken by
    a line feed. *)
Lemma C7_fallback_roundtrip_witness :
  snd (fetchViaGithubApi (contents_host "x/y.js" sample_content) DEFAULT_CONFIG
         (rawUrl DEFAULT_CONFIG (VStr "x/y.js")) "token")
  = Ok sample_text.
Proof.
  refine (proj2 (C7_fallback_roundtrip (contents_host "x/y.js" sample_content)
                   DEFAULT_CONFIG (rawUrl DEFAULT_CONFIG (VStr "x/y.js")) "token"
                   "x/y.js" sample_content (file_json sample_content)
                   (VObj [("type", VStr "file"); ("encoding", VStr "base64");
                          ("content", VStr sample_content)])
                   sample_text eq_refl _ eq_refl eq_refl eq_refl eq_refl eq_refl
                   eq_refl _ _) _).
  - discriminate.
  - unfold sample_text, scalar. repeat constructor; lia.
  - discriminate.
  - discriminate.
Defined.

(* ===================================================================== *)
(** * Part III: further properties of the code *)
(* ===================================================================== *)

(** ** Strings *)

Lemma app_String (c : ascii) (a b : string) : String c a +:+ b = String c (a +:+ b).
Proof. reflexivity. Qed.

Lemma app_empty_l (b : string) : "" +:+ b = b.
Proof. reflexivity. Qed.

Lemma app_empty_r (a : string) : a +:+ "" = a.
Proof.
  induction a as [|c a IH]; [reflexivity|]. rewrite app_String, IH. reflexivity.
Qed.

Lemma expand_app (f : ascii -> string) (a b : string) :
  expand f (a +:+ b) = expand f a +:+ expand f b.
Proof.
  induction a as [|c a IH]; [reflexivity|].
  rewrite app_String. cbn [expand]. rewrite IH, append_assoc. reflexivity.
Qed.

Lemma expand_ext (f g : ascii -> string) (s : string) :
  (forall c, f c = g c) -> expand f s = expand g s.
Proof.
  intros Hfg. induction s as [|c s IH]; [reflexivity|].
  cbn [expand]. rewrite Hfg, IH. reflexivity.
Qed.

Lemma expand_expand (f g : ascii -> string) (s : string) :
  expand g (expand f s) = expand (fun c => expand g (f c)) s.
Proof.
  induction s as [|c s IH]; [reflexivity|].
  cbn [expand]. rewrite expand_app, IH. reflexivity.
Qed.

Lemma replaceAll_expand (c : ascii) (r s : string) :
  replaceAll c r s = expand (fun x => if Ascii.eqb x c then r else String x "") s.
Proof.
  induction s as [|x s IH]; [reflexivity|].
  cbn [replaceAll expand]. rewrite IH. destruct (Ascii.eqb x c); reflexivity.
Qed.

Lemma occurs_app (c : ascii) (a b : string) :
  occurs c (a +:+ b) = occurs c a || occurs c b.
Proof.
  induction a as [|x a IH]; [reflexivity|].
  rewrite app_String. cbn [occurs]. rewrite IH. apply orb_assoc.
Qed.

Lemma occurs_expand (c : ascii) (f : ascii -> string) (s : string) :
  (forall x, occurs c (f x) = false) -> occurs c (expand f s) = false.
Proof.
  intros Hf. induction s as [|x s IH]; [reflexivity|].
  cbn [expand]. rewrite occurs_app, Hf, IH. reflexivity.
Qed.

(** ** HTML escaping *)

Lemma esc_string_entities (s : string) : esc_string s = expand entity s.
Proof.
  unfold esc_string. rewrite !replaceAll_expand, !expand_expand.
  apply expand_ext. intros c. each_char c; reflexivity.
Qed.

Lemma entities_expand (s : string) : entities s = expand entity s.
Proof. induction s as [|c s IH]; [reflexivity|]. cbn. rewrite IH. reflexivity. Qed.

(** X1. [esc] replaces each of the five special characters by its entity
    and leaves every other character alone - the five replacements of the
    source do not escape one another's output - and its result holds none
    of the characters [<], [>], the double quote and the apostrophe. *)
Theorem X1_esc_entities (v : value) :
  esc v = entities (ToString (coalesce v (VStr ""))) /\
  occurs lt_sign (esc v) = false /\
  occurs gt_sign (esc v) = false /\
  occurs quot (esc v) = false /\
  occurs apos (esc v) = false.
Proof.
  unfold esc. rewrite esc_string_entities, entities_expand.
  split; [reflexivity|].
  repeat split; apply occurs_expand; intros x; each_char x; reflexivity.
Qed.

(** ** Trimming *)

Lemma trim_end_cons (c : ascii) (s : string) :
  trim_end (String c s)
  = match trim_end s with
    | EmptyString => if is_space c then EmptyString else String c EmptyString
    | r => String c r
    end.
Proof. reflexivity. Qed.


Lemma trim_end_head (c : ascii) (s : string) :
  is_space c = false -> exists r, trim_end (String c s) = String c r.
Proof.
  intros Hc. rewrite trim_end_cons. destruct (trim_end s) as [|x r].
  - rewrite Hc. eexists. reflexivity.
  - eexists. reflexivity.
Qed.

Lemma trim_start_head (s : string) :
  trim_start s = "" \/ exists c r, trim_start s = String c r /\ is_space c = false.
Proof.
  induction s as [|c s IH]; [left; reflexivity|].
  cbn [trim_start]. destruct (is_space c) eqn:Ec; [exact IH|].
  right. exists c, s. split; [reflexivity | exact Ec].
Qed.


Lemma occurs_trim_start (c : ascii) (s : string) :
  occurs c s = false -> occurs c (trim_start s) = false.
Proof.
  induction s as [|x s IH]; [reflexivity|].
  cbn [occurs trim_start]. intros H. apply orb_false_iff in H as [Hx Hs].
  destruct (is_space x); [apply IH; exact Hs|].
  cbn [occurs]. rewrite Hx, Hs. reflexivity.
Qed.

Lemma occurs_trim_end (c : ascii) (s : string) :
  occurs c s = false -> occurs c (trim_end s) = false.
Proof.
  induction s as [|x s IH]; [reflexivity|].
  cbn [occurs]. intros H. apply orb_false_iff in H as [Hx Hs].
  rewrite trim_end_cons. specialize (IH Hs).
  destruct (trim_end s) as [|y r].
  - destruct (is_space x); [reflexivity|]. cbn [occurs]. rewrite Hx. reflexivity.
  - cbn [occurs] in *. rewrite Hx. exact IH.
Qed.

Lemma occurs_trim (c : ascii) (s : string) :
  occurs c s = false -> occurs c (trim s) = false.
Proof. intros H. unfold trim. apply occurs_trim_end, occurs_trim_start, H. Qed.

Lemma is_space_spec (c : ascii) : is_space c = true <-> white_space c.
Proof.
  unfold white_space. each_char c; cbn; split; intros H; try reflexivity;
    try discriminate H; try tauto;
    repeat (destruct H as [H | H]; [discriminate H|]); destruct H.
Qed.

Lemma is_space_false (c : ascii) : is_space c = false <-> ~ white_space c.
Proof.
  rewrite <- is_space_spec. destruct (is_space c); split; intros H; congruence.
Qed.

Lemma trim_first (s : string) (c : ascii) :
  first_char (trim s) c -> is_space c = false.
Proof.
  intros [rest Hrest]. unfold trim in Hrest.
  destruct (trim_start_head s) as [E | (x & r & E & Hx)]; rewrite E in Hrest.
  - discriminate Hrest.
  - destruct (trim_end_head x r Hx) as [r' Hr']. rewrite Hr' in Hrest.
    injection Hrest as -> _. exact Hx.
Qed.

Lemma trim_end_last (s : string) (c : ascii) :
  last_char (trim_end s) c -> is_space c = false.
Proof.
  induction s as [|x s IH]; intros [front Hfront].
  - destruct front; discriminate Hfront.
  - rewrite trim_end_cons in Hfront. destruct (trim_end s) as [|y r] eqn:E.
    + destruct (is_space x) eqn:Ex.
      * destruct front; discriminate Hfront.
      * destruct front as [|f front].
        -- injection Hfront as ->. exact Ex.
        -- rewrite app_String in Hfront. injection Hfront as _ Hfront.
           destruct front; discriminate Hfront.
    + destruct front as [|f front]; [discriminate Hfront|].
      rewrite app_String in Hfront. injection Hfront as _ Hfront.
      apply IH. exists front. exact Hfront.
Qed.

Lemma trim_ends (s : string) (c : ascii) :
  first_char (trim s) c \/ last_char (trim s) c -> ~ white_space c.
Proof.
  intros [H | H]; apply is_space_false.
  - exact (trim_first s c H).
  - exact (trim_end_last _ c H).
Qed.

(** A string with no white space at either end is left as it is by
    [trim]. *)
Lemma trim_clean (s : string) :
  (forall c, first_char s c \/ last_char s c -> ~ white_space c) -> trim s = s.
Proof.
  intros Hends. destruct s as [|x s]; [reflexivity|].
  assert (Hx : is_space x = false).
  { apply is_space_false, Hends. left. exists s. reflexivity. }
  unfold trim. cbn [trim_start]. rewrite Hx.
  assert (Hlast : forall c, last_char (String x s) c -> is_space c = false).
  { intros c Hc. apply is_space_false, Hends. right. exact Hc. }
  clear Hends Hx. revert x Hlast. induction s as [|y s IH]; intros x Hlast.
  - cbn. rewrite (Hlast x); [reflexivity|]. exists "". reflexivity.
  - rewrite trim_end_cons. rewrite IH.
    + reflexivity.
    + intros c [front Hfront]. apply Hlast. exists (String x front).
      rewrite app_String, Hfront. reflexivity.
Qed.

(** A line of white space only is trimmed to nothing. *)
Lemma trim_blank (line : string) :
  (forall c, occurs c line = true -> white_space c) -> trim line = "".
Proof.
  intros Hblank. unfold trim.
  assert (H : trim_start line = "").
  { induction line as [|x line IH]; [reflexivity|].
    cbn [trim_start].
    assert (Hx : is_space x = true).
    { apply is_space_spec, Hblank. cbn [occurs]. rewrite Ascii.eqb_refl. reflexivity. }
    rewrite Hx. apply IH. intros c Hc. apply Hblank. cbn [occurs]. rewrite Hc.
    apply orb_true_r. }
  rewrite H. reflexivity.
Qed.

(** ** The stored credential *)


(** ** Raw URLs and their repository paths *)

Lemma strip_leading_slashes_idem (s : string) :
  strip_leading_slashes (strip_leading_slashes s) = strip_leading_slashes s.
Proof.
  induction s as [|c s IH]; [reflexivity|].
  cbn [strip_leading_slashes].
  destruct (Ascii.eqb_spec c "/") as [-> | Hc]; [exact IH|].
  assert (H : strip_leading_slashes (String c s) = String c s).
  { each_char c; try reflexivity. congruence. }
  change (strip_leading_slashes (strip_leading_slashes (String c s))
          = strip_leading_slashes (String c s)).
  rewrite H. exact H.
Qed.

(** X3. The URL [rawUrl] builds for a path maps back, in the fallback, to
    that path without its leading slashes, whatever the configuration; so a
    path with leading slashes and the path without them give the same URL,
    and when the first fetch of such a URL is answered 401, 403 or 404 and
    a credential is stored, the one further request goes to the contents
    API for that path, with the credential as bearer token. *)
Theorem X3_raw_url_maps_back (fetch : request -> result response)
    (githubToken : option string) (cfg : Config) (path : value) :
  let u := rawUrl cfg path in
  let p := strip_leading_slashes (ToString path) in
  repo_path cfg u = Some p /\
  rawUrl cfg (VStr p) = u /\
  (forall res, p <> "" ->
     fetch {| url := u; bearer := None |} = Ok res -> ok res = false ->
     status res = 401 \/ status res = 403 \/ status res = 404 ->
     getToken githubToken <> "" ->
     fst (fetchTextWithFallback fetch githubToken cfg u)
     = [ {| url := u; bearer := None |};
         {| url := apiUrl cfg p; bearer := Some (getToken githubToken) |} ]).
Proof.
  intros u p. subst u p. split; [apply repo_path_rawUrl|]. split.
  - unfold rawUrl. cbn [ToString]. rewrite strip_leading_slashes_idem. reflexivity.
  - intros res Hp Hfetch Hok Hst Htok.
    unfold fetchTextWithFallback. rewrite Hfetch, Hok.
    apply status_listed in Hst. rewrite Hst.
    apply nonempty_true in Htok. rewrite Htok.
    unfold fetchViaGithubApi. rewrite repo_path_rawUrl.
    destruct (strip_leading_slashes (ToString path)) as [|c p']; [congruence|].
    cbn [fst]. unfold getGithubHeaders. rewrite Htok. reflexivity.
Qed.

(** ** The bulk-update snippet: the number and the sizes of the chunks *)

Lemma chunk_from_length {A : Type} (arr : list A) (size : positive) (i : nat) :
  length (chunk_from arr size i)
  = ((length arr - i + Pos.to_nat size - 1) / Pos.to_nat size)%nat.
Proof.
  funelim (chunk_from arr size i).
  - cbn [length]. rewrite H.
    pose proof (Pos2Nat.is_pos size) as Hs.
    destruct (le_lt_dec (Pos.to_nat size) (length arr - i)) as [Hge | Hlt].
    + replace (length arr - i + Pos.to_nat size - 1)%nat
        with ((length arr - (i + Pos.to_nat size) + Pos.to_nat size - 1)
              + 1 * Pos.to_nat size)%nat by lia.
      rewrite Nat.div_add by lia. lia.
    + replace (length arr - (i + Pos.to_nat size))%nat with 0%nat by lia.
      replace (length arr - i + Pos.to_nat size - 1)%nat
        with ((length arr - i - 1) + 1 * Pos.to_nat size)%nat by lia.
      rewrite Nat.div_add by lia.
      rewrite (Nat.div_small (0 + Pos.to_nat size - 1)) by lia.
      rewrite (Nat.div_small (length arr - i - 1)) by lia. reflexivity.
  - replace (length arr - i)%nat with 0%nat by lia.
    pose proof (Pos2Nat.is_pos size) as Hs.
    cbn [length]. symmetry. apply Nat.div_small. lia.
Qed.

Lemma chunk_from_full {A : Type} (arr : list A) (size : positive) (i : nat) :
  forall front last, chunk_from arr size i = front ++ [last] ->
  Forall (fun c => length c = Pos.to_nat size) front.
Proof.
  funelim (chunk_from arr size i); intros front last Hsplit.
  - destruct front as [|c front].
    + constructor.
    + cbn [app] in Hsplit. injection Hsplit as Hc Hrest.
      constructor; [|eapply H; exact Hrest].
      subst c. rewrite slice_take_drop, length_take, length_drop.
      assert (Hne : chunk_from arr size (i + Pos.to_nat size) <> []).
      { rewrite Hrest. destruct front; discriminate. }
      assert (Hlen : length (chunk_from arr size (i + Pos.to_nat size)) <> 0%nat).
      { destruct (chunk_from arr size (i + Pos.to_nat size)); [congruence|discriminate]. }
      rewrite chunk_from_length in Hlen.
      pose proof (Pos2Nat.is_pos size) as Hs.
      destruct (le_lt_dec (length arr) (i + Pos.to_nat size)) as [Hle | Hgt]; [|lia].
      exfalso. apply Hlen. apply Nat.div_small. lia.
  - destruct front; discriminate.
Qed.

(** X4. [chunk(arr, size)] returns as many chunks as [arr.length / size],
    rounded up - none for the empty array - and every chunk but the last
    holds exactly [size] elements. *)
Theorem X4_chunk_count {A : Type} (arr : list A) (size : positive) :
  length (chunk arr size)
  = ((length arr + Pos.to_nat size - 1) / Pos.to_nat size)%nat /\
  chunk (@nil A) size = [] /\
  (forall front last, chunk arr size = front ++ [last] ->
     Forall (fun c => length c = Pos.to_nat size) front).
Proof.
  unfold chunk. split; [|split].
  - rewrite chunk_from_length, Nat.sub_0_r. reflexivity.
  - simp chunk_from. reflexivity.
  - apply chunk_from_full.
Qed.

(** ** The bulk-update snippet: the identifiers read from the file *)

Lemma split_lines_LF (rest : string) :
  split_lines (String LF rest) = "" :: split_lines rest.
Proof. reflexivity. Qed.

Lemma split_lines_CRLF (rest : string) :
  split_lines (String CR (String LF rest)) = "" :: split_lines rest.
Proof. reflexivity. Qed.

Lemma split_lines_other (c : ascii) (rest : string) :
  Ascii.eqb c LF = false -> Ascii.eqb c CR = false ->
  split_lines (String c rest) = cons_head c (split_lines rest).
Proof.
  intros HLF HCR. cbn [split_lines]. rewrite HLF.
  destruct rest as [|c2 rest2]; [reflexivity|]. rewrite HCR. reflexivity.
Qed.

Lemma cons_head_no_LF (c : ascii) (lines : list string) :
  Ascii.eqb c LF = false ->
  Forall (fun l => occurs LF l = false) lines ->
  Forall (fun l => occurs LF l = false) (cons_head c lines).
Proof.
  intros Hc Hlines. destruct Hlines as [|l lines Hl Hrest]; cbn [cons_head].
  - repeat constructor. cbn [occurs]. rewrite Hc. reflexivity.
  - constructor; [|exact Hrest]. cbn [occurs]. rewrite Hc, Hl. reflexivity.
Qed.

Lemma split_lines_no_LF (s : string) :
  Forall (fun l => occurs LF l = false) (split_lines s).
Proof.
  assert (H : Forall (fun l => occurs LF l = false) (split_lines s) /\
              forall c, Forall (fun l => occurs LF l = false) (split_lines (String c s))).
  { induction s as [|x s [IH0 IH1]].
    - split; [repeat constructor|]. intros c. cbn [split_lines].
      destruct (Ascii.eqb c LF) eqn:Ec; [repeat constructor|].
      apply cons_head_no_LF; [exact Ec | repeat constructor].
    - split; [apply IH1|]. intros c. cbn [split_lines].
      destruct (Ascii.eqb c LF) eqn:Ec.
      + constructor; [reflexivity | apply IH1].
      + destruct (Ascii.eqb c CR && Ascii.eqb x LF).
        * constructor; [reflexivity | exact IH0].
        * apply cons_head_no_LF; [exact Ec | apply IH1]. }
  apply H.
Qed.

(** X5. Every identifier the snippet reads from the file is a line of it
    with the white space around it removed: it is not empty, neither its
    first nor its last character is a white-space character (tab, line
    feed, vertical tab, form feed, carriage return, space, no-break space),
    and it holds no line feed. *)
Theorem X5_contact_ids_clean (file_text : string) :
  Forall (fun id => id <> "" /\
                    (forall c, first_char id c \/ last_char id c -> ~ white_space c) /\
                    occurs LF id = false)
         (contactIds_of file_text).
Proof.
  apply List.Forall_forall. intros id Hin. unfold contactIds_of in Hin.
  apply filter_In in Hin as [Hin Hne].
  apply in_map_iff in Hin as (line & <- & Hline).
  split; [|split].
  - apply nonempty_true. exact Hne.
  - apply trim_ends.
  - apply occurs_trim.
    pose proof (split_lines_no_LF file_text) as Hall.
    rewrite List.Forall_forall in Hall. apply Hall. exact Hline.
Qed.

Lemma split_lines_line_LF (a rest : string) :
  occurs LF a = false -> occurs CR a = false ->
  split_lines (a +:+ String LF rest) = a :: split_lines rest.
Proof.
  induction a as [|c a IH]; intros HLF HCR; [reflexivity|].
  cbn [occurs] in HLF, HCR.
  apply orb_false_iff in HLF as [HcLF HaLF]. apply orb_false_iff in HCR as [HcCR HaCR].
  rewrite app_String, split_lines_other, IH by assumption. reflexivity.
Qed.

Lemma split_lines_line_CRLF (a rest : string) :
  occurs LF a = false -> occurs CR a = false ->
  split_lines (a +:+ String CR (String LF rest)) = a :: split_lines rest.
Proof.
  induction a as [|c a IH]; intros HLF HCR; [reflexivity|].
  cbn [occurs] in HLF, HCR.
  apply orb_false_iff in HLF as [HcLF HaLF]. apply orb_false_iff in HCR as [HcCR HaCR].
  rewrite app_String, split_lines_other, IH by assumption. reflexivity.
Qed.

Lemma contactIds_of_unlines (eol : string) (ids : list string) :
  (forall a rest, occurs LF a = false -> occurs CR a = false ->
                  split_lines (a +:+ eol +:+ rest) = a :: split_lines rest) ->
  Forall clean_id ids ->
  contactIds_of (unlines eol ids) = ids.
Proof.
  intros Hsplit Hclean. unfold contactIds_of.
  induction Hclean as [|id ids (Hne & Hends & HLF & HCR) _ IH]; [reflexivity|].
  cbn [unlines]. rewrite Hsplit by assumption.
  cbn [map List.filter]. rewrite (trim_clean id Hends), IH.
  apply nonempty_true in Hne. rewrite Hne. reflexivity.
Qed.

(** X6. A file that lists clean identifiers - not empty, with no
    white-space character first or last, and with no line feed or carriage
    return - one per line, each line ended by a line feed or by a carriage
    return and a line feed, is read back as exactly those identifiers, in
    order. *)
Theorem X6_contact_ids_roundtrip (ids : list string) :
  Forall clean_id ids ->
  contactIds_of (unlines (String LF "") ids) = ids /\
  contactIds_of (unlines (String CR (String LF "")) ids) = ids.
Proof.
  intros Hclean. split; apply contactIds_of_unlines; try exact Hclean.
  - intros a rest. apply split_lines_line_LF.
  - intros a rest. apply split_lines_line_CRLF.
Qed.

(** Two GUID-like identifiers. *)
Lemma X6_contact_ids_roundtrip_witness :
  contactIds_of (unlines (String CR (String LF "")) ["a1b2"; "c3d4"]) = ["a1b2"; "c3d4"].
Proof.
  apply (X6_contact_ids_roundtrip ["a1b2"; "c3d4"]).
  repeat constructor; try discriminate;
    intros c [[rest H] | [front H]] Hc; apply is_space_spec in Hc;
    try (injection H as <- _; discriminate Hc);
    repeat (destruct front as [|? front]; try discriminate H;
            try (injection H as <- <- <- <-; discriminate Hc)).
Defined.

Lemma buildTargets_ids (ids : list string) (fieldName : string) (v : bool) :
  map contactid (buildTargets ids fieldName v) = ids.
Proof.
  unfold buildTargets. rewrite map_map. cbn [contactid]. apply map_id.
Qed.

(** X7. When the endpoint accepts every chunk, the payloads posted for a
    file, taken together and in order, name exactly the identifiers read
    from the file, each with the field [mag_hascriticalinsights] set to
    false and the contact type; the count processed is their number.  A
    file without identifiers - empty, or of blank lines only - posts
    nothing and ends normally. *)
Theorem X7_process_file_payloads
    (post : list (list target) -> list target -> result post_response)
    (file_text : string) :
  let out := process_file post file_text in
  let ids := contactIds_of file_text in
  (accepted_all post [] (chunk (buildTargets ids "mag_hascriticalinsights" false) 200) ->
   snd out = Ok tt /\
   map contactid (concat (posted (fst out))) = ids /\
   Forall (fun t => field_name t = "mag_hascriticalinsights" /\ field_value t = false /\
                    odata_type t = "Microsoft.Dynamics.CRM.contact")
          (concat (posted (fst out))) /\
   processedCount (fst out) = length ids) /\
  (ids = [] -> snd out = Ok tt /\ posted (fst out) = []) /\
  (Forall (fun line => forall c, occurs c line = true -> white_space c)
          (split_lines file_text) -> ids = []).
Proof.
  intros out ids. subst out. unfold process_file, process. fold ids.
  set (targets := buildTargets ids "mag_hascriticalinsights" false).
  set (st0 := {| processedCount := 0;
                 displayed := [submitting_line (length targets) (length (chunk targets 200))];
                 posted := [] |}).
  assert (Hall : accepted_all post [] (chunk targets 200) ->
                 submit post st0 (chunk targets 200)
                 = ({| processedCount := length targets;
                       displayed := displayed st0
                                    ++ map updated_line (running_totals 0 (chunk targets 200));
                       posted := chunk targets 200 |}, Ok tt)).
  { intros Hacc. pose proof (submit_accepted post (chunk targets 200) [] st0 Hacc) as Hsub.
    rewrite app_nil_r in Hsub. rewrite Hsub. cbn [submit processedCount posted st0 app].
    unfold chunk. rewrite chunk_from_concat. reflexivity. }
  split; [|split].
  - intros Hacc. rewrite (Hall Hacc). cbn [fst snd posted processedCount].
    unfold chunk. rewrite chunk_from_concat. cbn [drop].
    repeat split.
    + apply buildTargets_ids.
    + subst targets. unfold buildTargets. apply Forall_map.
      apply Forall_true. intros id. cbn. auto.
    + subst targets. unfold buildTargets. apply length_map.
  - intros Hids. rewrite Hall.
    + subst targets. rewrite Hids. cbn [buildTargets map].
      unfold chunk. simp chunk_from. cbn. auto.
    + subst targets. rewrite Hids. cbn [buildTargets map].
      unfold chunk. simp chunk_from. cbn. constructor.
  - intros Hblank. subst ids. unfold contactIds_of.
    induction Hblank as [|line lines Hline _ IH]; [reflexivity|].
    cbn [map List.filter]. rewrite (trim_blank line Hline). exact IH.
Qed.

(** ** The search box *)











(** ** The DevTools runner's fetch *)

Lemma fetchText_with_token (fetch : request -> result response) (prompt : option string)
    (cfg : Config) (githubToken u : string) (allow : bool) :
  githubToken <> "prompt" ->
  fetchText fetch prompt cfg githubToken u allow
  = {| token_after := githubToken;
       prompted_user := false;
       requests := [ {| url := u; bearer := None |} ];
       outcome := match fetch {| url := u; bearer := None |} with
                  | Throw e => Throw e
                  | Ok res =>
                      if negb (ok res)
                      then Throw (Error (fetch_failed (status res) u (safeRead res)))
                      else body res
                  end |}.
Proof.
  intros Htok. unfold fetchText.
  destruct (fetch _) as [res|e]; [|reflexivity].
  destruct (String.eqb_spec githubToken "prompt") as [Heq | _]; [contradiction|].
  rewrite andb_false_r. reflexivity.
Qed.

Lemma fetchText_token_after (fetch : request -> result response) (prompt : option string)
    (cfg : Config) (githubToken u : string) (allow : bool) :
  token_after (fetchText fetch prompt cfg githubToken u allow) = githubToken \/
  (githubToken = "prompt" /\
   prompted_user (fetchText fetch prompt cfg githubToken u allow) = true /\
   exists entered, prompt = Some entered /\ trim entered <> "" /\
     token_after (fetchText fetch prompt cfg githubToken u allow) = trim entered).
Proof.
  unfold fetchText.
  destruct (fetch _) as [res|e]; [|left; reflexivity].
  destruct (negb (ok res) && allow && String.eqb githubToken "prompt") eqn:Hcond;
    [|left; reflexivity].
  destruct (existsb _ _); [|left; reflexivity].
  destruct prompt as [entered|]; [|left; reflexivity].
  destruct (nonempty entered && nonempty (trim entered)) eqn:Hentered;
    [|left; reflexivity].
  right. apply andb_true_iff in Hcond as [_ Hprompt].
  apply String.eqb_eq in Hprompt. apply andb_true_iff in Hentered as [_ Htrim].
  apply nonempty_true in Htrim.
  destruct (fetchViaGithubApi _ _ _ _) as [reqs r]. cbn.
  split; [exact Hprompt|]. split; [reflexivity|].
  exists entered. auto.
Qed.

(** X9. The DevTools runner's [fetchText] asks for a token and falls back
    to the contents API only while [CONFIG.githubToken] is "prompt".  A
    call leaves the token as it was unless it prompted and the user entered
    text that is not blank, which it stores trimmed.  Whenever the token a
    call leaves is not "prompt" - as it is not, unless the text entered
    trims to "prompt" itself - the next [fetchText] issues its one
    unauthenticated request and nothing else: it neither prompts nor
    contacts the API, it leaves the token unchanged, and a response that is
    not successful fails with the "Fetch failed" error carrying the status,
    the URL and the body. *)
Theorem X9_devtools_fallback_once (fetch : request -> result response)
    (prompt prompt2 : option string) (cfg : Config) (githubToken u u2 : string)
    (allow allow2 : bool) :
  let first := fetchText fetch prompt cfg githubToken u allow in
  let second := fetchText fetch prompt2 cfg (token_after first) u2 allow2 in
  (token_after first = githubToken \/
   (githubToken = "prompt" /\ prompted_user first = true /\
    exists entered, prompt = Some entered /\ trim entered <> "" /\
                    token_after first = trim entered)) /\
  (token_after first <> "prompt" ->
   token_after second = token_after first /\
   prompted_user second = false /\
   requests second = [ {| url := u2; bearer := None |} ] /\
   forall res, fetch {| url := u2; bearer := None |} = Ok res -> ok res = false ->
     outcome second
     = Throw (Error
         (lit ("Fetch failed (" +:+ Number_toString (status res) +:+ ") for " +:+ u2 +:+ nl)
          ++ match body res with
             | Ok (c :: b) => lit "Details: " ++ c :: b
             | _ => []
             end))).
Proof.
  intros first second. split; [apply fetchText_token_after|].
  intros Htok. subst second. rewrite fetchText_with_token by exact Htok.
  cbn [token_after prompted_user requests outcome]. repeat split.
  intros res -> ->. cbn [negb]. unfold fetch_failed, details, safeRead.
  destruct (body res) as [[|c b]|e]; reflexivity.
Qed.

(** A private repository: the manifest's fetch is answered 404 and the user
    enters a token, padded with a space and a no-break space; the fetch of
    a snippet file that follows is answered 404 too and fails without a
    second request. *)
Lemma X9_devtools_fallback_once_witness :
  token_after (fetchText (serve []) (Some (" tok" +:+ String (ascii_of_nat 160) ""))
                 DEFAULT_CONFIG "prompt"
                 (rawUrl DEFAULT_CONFIG (VStr "snippets/manifest.json")) true) = "tok" /\
  requests (fetchText (serve []) None DEFAULT_CONFIG "tok"
              (rawUrl DEFAULT_CONFIG (VStr "snippets/a/run.js")) true)
  = [ {| url := rawUrl DEFAULT_CONFIG (VStr "snippets/a/run.js"); bearer := None |} ].
Proof.
  split; [reflexivity|].
  apply (X9_devtools_fallback_once (serve [])
           (Some (" tok" +:+ String (ascii_of_nat 160) "")) None DEFAULT_CONFIG "prompt"
           (rawUrl DEFAULT_CONFIG (VStr "snippets/manifest.json"))
           (rawUrl DEFAULT_CONFIG (VStr "snippets/a/run.js")) true true).
  discriminate.
Defined.

(** ** The popup's selection *)

(** X10. The popup does not check, when the files of a snippet arrive,
    that the snippet is still the selected one.  When a snippet A is
    selected, then a snippet B, and the files of A arrive after those of B,
    the popup shows B as selected with Run enabled, holds the code of A, and
    a click on Run passes the code of A through the gate of B: when B is not
    risky, the code of A runs without confirmation, whatever the risk of
    A. *)
Theorem X10_stale_reply_wins (confirm : string -> bool) (cfg : Config) (st : popup)
    (A B : value) (filesA filesB : snippet_files) :
  let st1 := selectSnippet_begin B (selectSnippet_begin A st) in
  let st2 := fst (selectSnippet_reply (Ok filesB) st1) in
  let st3 := fst (selectSnippet_reply (Ok filesA) st2) in
  selected st3 = B /\ selectedCode st3 = Some (code filesA) /\
  runDisabled st3 = false /\
  (truthy B = true -> code filesA <> [] ->
   click_run confirm cfg st3 = gate confirm cfg B (code filesA) /\
   (requireConfirmForRisky cfg = false \/ risk_of B ∉ riskyLevels cfg ->
    click_run confirm cfg st3 = Proceeds None (code filesA))).
Proof.
  intros st1 st2 st3. subst st1 st2 st3.
  split; [reflexivity|]. split; [reflexivity|]. split; [reflexivity|].
  intros HB Hcode.
  change (runSelected confirm cfg B (Some (code filesA)) = gate confirm cfg B (code filesA) /\
          (requireConfirmForRisky cfg = false \/ risk_of B ∉ riskyLevels cfg ->
           runSelected confirm cfg B (Some (code filesA)) = Proceeds None (code filesA))).
  rewrite runSelected_ready by assumption.
  split; [reflexivity | apply gate_silent].
Qed.

(** X11. In the popup a click on Run runs something only after a
    selection whose files were loaded: after a successful load it passes the
    loaded code through the gate of the selected snippet; after a failed
    load, and after a reload of the manifest - also when the files of an
    earlier selection arrive after it - it does nothing. *)
Theorem X11_run_needs_loaded_selection (confirm : string -> bool) (cfg : Config)
    (st : popup) (s : value) (files : snippet_files) (e : error) :
  (truthy s = true -> code files <> [] ->
   click_run confirm cfg (fst (selectSnippet_reply (Ok files) (selectSnippet_begin s st)))
   = gate confirm cfg s (code files)) /\
  (code files = [] ->
   click_run confirm cfg (fst (selectSnippet_reply (Ok files) (selectSnippet_begin s st)))
   = NotReady) /\
  click_run confirm cfg (fst (selectSnippet_reply (Throw e) (selectSnippet_begin s st)))
  = NotReady /\
  runDisabled (fst (selectSnippet_reply (Throw e) (selectSnippet_begin s st))) = true /\
  click_run confirm cfg (loadManifest_begin st) = NotReady /\
  click_run confirm cfg (fst (selectSnippet_reply (Ok files) (loadManifest_begin st)))
  = NotReady.
Proof.
  split; [|split; [|split; [|split; [|split]]]]; try reflexivity.
  - intros Hs Hcode.
    change (runSelected confirm cfg s (Some (code files)) = gate confirm cfg s (code files)).
    apply runSelected_ready; assumption.
  - intros Hcode.
    change (runSelected confirm cfg s (Some (code files)) = NotReady).
    rewrite Hcode. reflexivity.
  - change (runSelected confirm cfg VNull (Some (code files)) = NotReady).
    unfold runSelected. destruct (code files); reflexivity.
Qed.

(** ** The fallback returns well-formed text *)

Lemma lead_scalar (b : Z) :
  Forall scalar (fst (Utf8.lead b)) /\ pending_scalar (snd (Utf8.lead b)).
Proof.
  unfold Utf8.lead.
  destruct ((0 <=? b) && (b <=? 127)) eqn:E1.
  { apply andb_true_iff in E1 as [H0 H127]. apply Z.leb_le in H0, H127.
    cbn [fst snd]. split; [|exact I]. constructor; [unfold scalar; lia | constructor]. }
  destruct ((194 <=? b) && (b <=? 223)) eqn:E2.
  { apply andb_true_iff in E2 as [Hlo Hhi]. apply Z.leb_le in Hlo, Hhi.
    cbn [fst snd]. split; [constructor|].
    unfold pending_scalar, scalar_interval. cbn.
    repeat split; try lia. left. Z.div_mod_to_equations. lia. }
  destruct ((224 <=? b) && (b <=? 239)) eqn:E3.
  { apply andb_true_iff in E3 as [Hlo Hhi]. apply Z.leb_le in Hlo, Hhi.
    cbn [fst snd]. split; [constructor|].
    unfold pending_scalar, scalar_interval. cbn.
    destruct (Z.eqb_spec b 224), (Z.eqb_spec b 237); repeat split; try lia;
      Z.div_mod_to_equations; lia. }
  destruct ((240 <=? b) && (b <=? 244)) eqn:E4.
  { apply andb_true_iff in E4 as [Hlo Hhi]. apply Z.leb_le in Hlo, Hhi.
    cbn [fst snd]. split; [constructor|].
    unfold pending_scalar, scalar_interval. cbn.
    destruct (Z.eqb_spec b 240), (Z.eqb_spec b 244); repeat split; try lia;
      Z.div_mod_to_equations; lia. }
  cbn [fst snd]. split; [|exact I]. constructor; [unfold scalar, Utf8.replacement; lia | constructor].
Qed.

Lemma step_scalar (st : Utf8.state) (b : Z) :
  pending_scalar st ->
  Forall scalar (fst (Utf8.step st b)) /\ pending_scalar (snd (Utf8.step st b)).
Proof.
  intros Hinv. unfold Utf8.step. unfold pending_scalar in Hinv.
  destruct st as [cp needed lo hi]. cbn [Utf8.bytes_needed Utf8.lower Utf8.upper
                                         Utf8.code_point] in *.
  destruct needed as [|k]; [apply lead_scalar|].
  destruct Hinv as (Hk & Hlo & Hhi & Hrange).
  destruct ((lo <=? b) && (b <=? hi)) eqn:E.
  - apply andb_true_iff in E as [Hb1 Hb2]. apply Z.leb_le in Hb1, Hb2.
    assert (Hmod : b mod 64 = b - 128) by (Z.div_mod_to_equations; lia).
    rewrite Hmod. unfold scalar_interval in Hrange.
    destruct k as [|[|[|k]]]; try lia; cbn [span] in Hrange; cbn [fst snd].
    + split; [|exact I]. constructor; [unfold scalar; lia | constructor].
    + split; [constructor|]. unfold pending_scalar, scalar_interval. cbn.
      repeat split; lia.
    + split; [constructor|]. unfold pending_scalar, scalar_interval. cbn.
      repeat split; lia.
  - destruct (Utf8.lead b) as [out st'] eqn:El.
    pose proof (lead_scalar b) as [Hout Hst']. rewrite El in Hout, Hst'.
    cbn [fst snd] in *. split; [|exact Hst'].
    constructor; [|exact Hout]. unfold scalar, Utf8.replacement. lia.
Qed.

Lemma run_scalar (bs : list Z) (st : Utf8.state) :
  pending_scalar st -> Forall scalar (Utf8.run st bs).
Proof.
  revert st. induction bs as [|b bs IH]; intros st Hinv.
  - cbn [Utf8.run]. destruct (Utf8.bytes_needed st); [constructor|].
    constructor; [unfold scalar, Utf8.replacement; lia | constructor].
  - rewrite run_cons. destruct (step_scalar st b Hinv) as [Hout Hst'].
    apply Forall_app. split; [exact Hout | apply IH; exact Hst'].
Qed.

Lemma decode_scalar (bs : list Z) : Forall scalar (Utf8.decode bs).
Proof.
  unfold Utf8.decode, Utf8.strip_bom.
  pose proof (run_scalar bs Utf8.init I) as H.
  destruct H as [|c out Hc Hout]; [constructor|].
  destruct (c =? 65279); [exact Hout | constructor; assumption].
Qed.

(** X12. Whatever the contents API answers, a text the fallback returns
    is well-formed: every character of it is a Unicode scalar value (bytes
    that are not UTF-8 come out as U+FFFD, never as a surrogate or a value
    beyond U+10FFFF); and the fallback issues at most one request. *)
Theorem X12_fallback_text_well_formed (fetch : request -> result response)
    (cfg : Config) (u token : string) (t : text) :
  snd (fetchViaGithubApi fetch cfg u token) = Ok t ->
  Forall scalar t /\ (length (fst (fetchViaGithubApi fetch cfg u token)) <= 1)%nat.
Proof.
  unfold fetchViaGithubApi.
  destruct (repo_path cfg u) as [[|c p]|]; cbn [fst snd]; try discriminate.
  destruct (fetch _) as [res|e]; cbn [bind]; [|discriminate].
  destruct (negb (ok res)); [discriminate|].
  destruct (json res) as [j|e]; cbn [bind]; [|discriminate].
  unfold decode_contents.
  destruct (negb (truthy j) || _ || _); [discriminate|].
  destruct (Base64.atob _) as [txt|e]; cbn [bind]; [|discriminate].
  intros H. injection H as <-. split; [apply decode_scalar | cbn; lia].
Qed.

(** An answer whose content is the base64 of the bytes FF FE 41, which are
    not UTF-8. *)
Lemma X12_fallback_text_well_formed_witness :
  snd (fetchViaGithubApi (contents_host "x/y.js" "//5B") DEFAULT_CONFIG
         (rawUrl DEFAULT_CONFIG (VStr "x/y.js")) "token") = Ok [65533; 65533; 65] /\
  Forall scalar [65533; 65533; 65].
Proof.
  split; [reflexivity|].
  apply (X12_fallback_text_well_formed (contents_host "x/y.js" "//5B") DEFAULT_CONFIG
           (rawUrl DEFAULT_CONFIG (VStr "x/y.js")) "token" [65533; 65533; 65] eq_refl).
Defined.

(** ** The manifest loader: entries that are not descriptors *)

Lemma compare_names_throws (cmp : string -> string -> Z) (a b : value) (e : error) :
  compare_names cmp a b = Throw e -> e = TypeError.
Proof.
  unfold compare_names.
  destruct (get a "name") as [na|ea] eqn:Ha; cbn [bind].
  - destruct (get b "name") as [nb|eb] eqn:Hb; cbn [bind].
    + destruct (or_else na (VStr "")); congruence.
    + destruct b; cbn in Hb; congruence.
  - destruct a; cbn in Ha; congruence.
Qed.

Lemma insert_result (cmp : string -> string -> Z) (x : value) (s : list value) :
  match insert cmp x s with
  | Ok r => Permutation (x :: s) r
  | Throw e => e = TypeError
  end.
Proof.
  induction s as [|y s IH]; [apply Permutation_refl|].
  cbn [insert]. destruct (compare_names cmp x y) as [c|e] eqn:Hc; cbn [bind].
  - destruct (c <=? 0); [apply Permutation_refl|].
    destruct (insert cmp x s) as [r|e]; cbn [bind]; [|exact IH].
    cbv beta iota in IH. rewrite <- IH. apply perm_swap.
  - eapply compare_names_throws. exact Hc.
Qed.

Lemma sort_result (cmp : string -> string -> Z) (l : list value) :
  match sort cmp l with
  | Ok r => Permutation l r
  | Throw e => e = TypeError
  end.
Proof.
  induction l as [|x l IH]; [apply Permutation_refl|].
  cbn [sort]. destruct (sort cmp l) as [s|e]; cbn [bind]; [|exact IH].
  pose proof (insert_result cmp x s) as Hins.
  destruct (insert cmp x s) as [r|e]; [|exact Hins].
  cbv beta iota in IH, Hins. rewrite <- Hins. constructor. exact IH.
Qed.

Lemma sort_nullish_entry (cmp : string -> string -> Z) (l : list value) :
  (exists x, In x l /\ nullish x = true) -> (2 <= length l)%nat ->
  sort cmp l = Throw TypeError.
Proof.
  induction l as [|x l IH]; intros (z & Hz & Hnull) Hlen; [inversion Hz|].
  cbn [sort]. pose proof (sort_result cmp l) as Hsorted.
  destruct (sort cmp l) as [s|e] eqn:Hsort; cbn [bind]; [|congruence].
  cbv beta iota in Hsorted.
  destruct (nullish x) eqn:Hx.
  - destruct s as [|y s].
    { apply Permutation_length in Hsorted. cbn [length] in *. lia. }
    cbn [insert]. unfold compare_names.
    destruct x; try discriminate Hx; reflexivity.
  - destruct Hz as [-> | Hz]; [congruence|].
    destruct l as [|a [|b l]].
    + inversion Hz.
    + destruct Hz as [-> | []].
      apply Permutation_length_1_inv in Hsorted. subst s.
      cbn [insert]. unfold compare_names.
      destruct x; try discriminate Hx; destruct z; try discriminate Hnull; reflexivity.
    + exfalso.
      assert (Hthrow : @Ok (list value) s = Throw TypeError).
      { apply IH; [exists z; auto | cbn [length]; lia]. }
      discriminate Hthrow.
Qed.

(** X13. For a manifest that parses and has an array of snippets, the
    only failure of the loader is a TypeError of the comparator.  One entry
    that is [null] among two or more makes the whole load fail with it -
    there is no list without the bad entry - while an array of no or one
    entry, which needs no comparison, loads as it is. *)
Theorem X13_manifest_bad_entry (JSON_parse : text -> result value)
    (cmp : string -> string -> Z) (t : text) (m : value) (elems : list value) :
  JSON_parse t = Ok m ->
  get_opt m "snippets" = VArr elems ->
  (forall e, parse_manifest JSON_parse cmp t = Throw e -> e = TypeError) /\
  ((exists x, In x elems /\ nullish x = true) -> (2 <= length elems)%nat ->
   parse_manifest JSON_parse cmp t = Throw TypeError) /\
  ((length elems <= 1)%nat -> parse_manifest JSON_parse cmp t = Ok elems).
Proof.
  intros Hparse Hsnippets.
  assert (Hm : truthy m = true).
  { destruct m; simpl in Hsnippets; try discriminate. reflexivity. }
  assert (Hpm : parse_manifest JSON_parse cmp t = sort cmp elems).
  { unfold parse_manifest. rewrite Hparse. cbn [bind]. rewrite Hm, Hsnippets. reflexivity. }
  rewrite Hpm. split; [|split].
  - intros e He. pose proof (sort_result cmp elems) as H. rewrite He in H. exact H.
  - apply sort_nullish_entry.
  - intros Hlen. destruct elems as [|x [|y l]]; [reflexivity | reflexivity|].
    cbn [length] in Hlen. lia.
Qed.

(** A manifest with a descriptor and a [null]. *)
Lemma X13_manifest_bad_entry_witness :
  parse_manifest (parse_one (lit "m") (VObj [("snippets", VArr [desc_alpha; VNull])]))
    root_compare (lit "m")
  = Throw TypeError.
Proof.
  refine (proj1 (proj2 (X13_manifest_bad_entry
            (parse_one (lit "m") (VObj [("snippets", VArr [desc_alpha; VNull])]))
            root_compare (lit "m") (VObj [("snippets", VArr [desc_alpha; VNull])])
            [desc_alpha; VNull] eq_refl eq_refl)) _ _).
  - exists VNull. split; [right; left; reflexivity | reflexivity].
  - cbn. lia.
Defined.

(** ** The fallback: content that is not base64 *)

Lemma strip_padding_keeps (c : ascii) (cs : list ascii) :
  Base64.is_pad c = false -> In c cs -> In c (Base64.strip_padding cs).
Proof.
  intros Hc Hin. unfold Base64.strip_padding.
  destruct (Nat.eqb (length cs mod 4) 0); [|exact Hin].
  destruct (rev cs) as [|p1 [|p2 r]] eqn:E; try exact Hin.
  destruct (Base64.is_pad p1) eqn:Hp1; [|exact Hin].
  assert (Hrev : In c (p1 :: p2 :: r)).
  { rewrite <- E. apply in_rev in Hin. exact Hin. }
  destruct Hrev as [-> | Hrev]; [congruence|].
  destruct (Base64.is_pad p2) eqn:Hp2.
  - destruct Hrev as [-> | Hrev]; [congruence|]. apply in_rev in Hrev. exact Hrev.
  - apply in_rev in Hrev. exact Hrev.
Qed.

Lemma sextets_of_chars_invalid (c : ascii) (cs : list ascii) :
  Base64.sextet_of_char c = None -> In c cs -> Base64.sextets_of_chars cs = None.
Proof.
  intros Hc. induction cs as [|x cs IH]; intros Hin; [inversion Hin|].
  cbn [Base64.sextets_of_chars].
  destruct Hin as [-> | Hin]; [rewrite Hc; reflexivity|].
  rewrite (IH Hin). destruct (Base64.sextet_of_char x); reflexivity.
Qed.

Lemma atob_invalid (c : ascii) (data : string) :
  In c (list_ascii_of_string data) ->
  Base64.sextet_of_char c = None -> Base64.is_pad c = false ->
  Base64.is_ascii_whitespace c = false ->
  Base64.atob data = Throw InvalidCharacterError.
Proof.
  intros Hin Hsextet Hpad Hws. unfold Base64.atob.
  destruct (Nat.eqb _ 1); [reflexivity|].
  rewrite (sextets_of_chars_invalid c); [reflexivity | exact Hsextet|].
  apply strip_padding_keeps; [exact Hpad|].
  apply filter_In. split; [exact Hin | rewrite Hws; reflexivity].
Qed.

Lemma remove_newlines_keeps (c : ascii) (s : string) :
  Ascii.eqb c LF = false -> In c (list_ascii_of_string s) ->
  In c (list_ascii_of_string (remove_newlines s)).
Proof.
  intros Hc. induction s as [|x s IH]; intros Hin; [inversion Hin|].
  cbn [remove_newlines]. cbn [list_ascii_of_string] in Hin.
  destruct Hin as [-> | Hin].
  - change (ascii_of_nat 10) with LF. rewrite Hc. left. reflexivity.
  - destruct (Ascii.eqb x (ascii_of_nat 10)); [apply IH; exact Hin|].
    right. apply IH. exact Hin.
Qed.

(** X14. The "best effort" of the fallback covers the UTF-8 decoding
    only: when the answer is a file whose [content] holds a character that
    is neither of the base64 alphabet nor [=] nor white space, the fallback
    throws the InvalidCharacterError of [atob] and returns no text. *)
Theorem X14_fallback_invalid_base64 (path content : string) (j : value) (c : ascii) :
  get_opt j "type" = VStr "file" ->
  get_opt j "content" = VStr content ->
  In c (list_ascii_of_string content) ->
  Base64.sextet_of_char c = None -> Base64.is_pad c = false ->
  Base64.is_ascii_whitespace c = false ->
  decode_contents path j = Throw InvalidCharacterError.
Proof.
  intros Htype Hcontent Hin Hsextet Hpad Hws.
  assert (Hj : truthy j = true).
  { destruct j; simpl in Htype; try discriminate. reflexivity. }
  assert (Hc : truthy (VStr content) = true).
  { destruct content; [inversion Hin | reflexivity]. }
  unfold decode_contents. rewrite Hj, Htype, Hcontent, Hc.
  cbn [negb orb is_file ToString]. change ("file" =? "file")%string with true.
  cbn [negb orb].
  rewrite (atob_invalid c); [reflexivity | | assumption..].
  apply remove_newlines_keeps; [|exact Hin].
  each_char c; try reflexivity; discriminate Hws.
Qed.

(** A content with an exclamation mark. *)
Lemma X14_fallback_invalid_base64_witness :
  decode_contents "x/y.js"
    (VObj [("type", VStr "file"); ("content", VStr "SGk!")])
  = Throw InvalidCharacterError.
Proof.
  apply (X14_fallback_invalid_base64 "x/y.js" "SGk!"
           (VObj [("type", VStr "file"); ("content", VStr "SGk!")]) "!"%char
           eq_refl eq_refl);
    [right; right; right; left; reflexivity | reflexivity..].
Defined.
